(** * Sport filtering and the unified data facade

    A shallow embedding of the sport registry ([unifiedSports]), the sport
    filtering utilities ([sportFiltering]) and the caching data facade
    ([UnifiedDataService]), with the properties stated about them.

    Conventions of the embedding.
    - A JavaScript string is a [string]: a sequence of 8-bit code units, read
      as the Latin-1 range of UTF-16.  [toLowerCase] and the regular
      expression class [\s] are modelled on that range, which both leave
      invariant.
    - A JavaScript number is an integer of [Z] (epoch milliseconds,
      confidences, odds).  The functions below only test numbers for
      truthiness, compare them and pass them on.
    - An object literal used as a table is the list of its own properties, in
      insertion order, together with the properties it inherits from
      [Object.prototype]: a property read [o[k]] sees both.
    - Code that can throw returns a [JsResult]; the value thrown, or the
      value a promise rejects with, is a [JsError], which need not be an
      error object.
    - The calls to the logger ([logApiCall], [logError], [logger.info])
      return and take no part in the results; they are left out. *)

From Stdlib Require Import ZArith NArith List Ascii String Permutation Lia Bool.
From stdpp Require Import base option strings pretty gmap list.
Import ListNotations.

Local Open Scope string_scope.
Local Open Scope Z_scope.

(** ** Exceptions *)

(** A thrown value.  JavaScript can throw, and a promise can reject with,
    anything: an error object, [undefined], [null], or another value, which
    may or may not have a [message]. *)
Inductive JsError : Type :=
| TypeError (message : string)
| Error (message : string)
| ThrownUndefined
| ThrownNull
| ThrownValue (message : option string).

Inductive JsResult (A : Type) : Type :=
| Ok (a : A)
| Throw (e : JsError).

Arguments Ok {A} a.
Arguments Throw {A} e.

(** The read [e.message]: it throws on [undefined] and on [null]. *)
Definition message (e : JsError) : JsResult (option string) :=
  match e with
  | TypeError m => Ok (Some m)
  | Error m => Ok (Some m)
  | ThrownValue m => Ok m
  | ThrownUndefined =>
      Throw (TypeError "Cannot read properties of undefined (reading 'message')")
  | ThrownNull =>
      Throw (TypeError "Cannot read properties of null (reading 'message')")
  end.

Definition nullish (e : JsError) : bool :=
  match e with
  | ThrownUndefined | ThrownNull => true
  | _ => false
  end.

Definition js_bind {A B : Type} (r : JsResult A) (k : A -> JsResult B) : JsResult B :=
  match r with
  | Ok a => k a
  | Throw e => Throw e
  end.

Notation "'try!' x <- r ; k" := (js_bind r (fun x => k))
  (at level 10, x name, r at level 100, k at level 200).

(** ** Strings *)

Module JsString.

Definition code (c : ascii) : N := N_of_ascii c.

(** [String.prototype.toLowerCase] on one code unit: A-Z, and the Latin-1
    capitals U+00C0..U+00DE except the multiplication sign U+00D7. *)
Definition lower_char (c : ascii) : ascii :=
  let n := code c in
  if ((65 <=? n) && (n <=? 90) ||
      (192 <=? n) && (n <=? 222) && negb (n =? 215))%N
  then ascii_of_N (n + 32) else c.

Fixpoint map_chars (f : ascii -> ascii) (s : string) : string :=
  match s with
  | EmptyString => EmptyString
  | String c s' => String (f c) (map_chars f s')
  end.

Definition toLowerCase (s : string) : string := map_chars lower_char s.

(** The class [\s]: TAB, LF, VT, FF, CR, SPACE and NO-BREAK SPACE. *)
Definition is_whitespace (c : ascii) : bool :=
  let n := code c in
  ((9 <=? n) && (n <=? 13) || (n =? 32) || (n =? 160))%N.

(** [s.includes(t)]: [t] occurs in [s] as a contiguous substring. *)
Fixpoint includes (s t : string) : bool :=
  String.prefix t s ||
  match s with
  | EmptyString => false
  | String _ s' => includes s' t
  end.

(** Neither a capital A-Z nor an underscore. *)
Definition plain_char (c : ascii) : bool :=
  negb ((65 <=? code c)%N && (code c <=? 90)%N || Ascii.eqb c "_").

Fixpoint all_chars (p : ascii -> bool) (s : string) : bool :=
  match s with
  | EmptyString => true
  | String c s' => p c && all_chars p s'
  end.

(** Truthiness of a string: only the empty string is falsy. *)
Definition truthy (s : string) : bool :=
  match s with EmptyString => false | _ => true end.

End JsString.

(** ** Object literals and property reads *)

Module JsObject.

(** The property names every object literal inherits. *)
Definition Object_prototype_keys : list string :=
  [ "constructor"; "hasOwnProperty"; "isPrototypeOf"; "propertyIsEnumerable";
    "toLocaleString"; "toString"; "valueOf"; "__proto__";
    "__defineGetter__"; "__defineSetter__"; "__lookupGetter__";
    "__lookupSetter__" ].

(** The value of a property read [o[k]]. *)
Inductive Property (A : Type) : Type :=
| Own (a : A)                 (* an own property of the literal *)
| Inherited (name : string)   (* a function or object of [Object.prototype] *)
| Undefined.

Arguments Own {A} a.
Arguments Inherited {A} name.
Arguments Undefined {A}.

Fixpoint own_property {A : Type} (o : list (string * A)) (k : string) : option A :=
  match o with
  | [] => None
  | (k', a) :: o' => if String.eqb k' k then Some a else own_property o' k
  end.

Definition mem (k : string) (l : list string) : bool :=
  existsb (String.eqb k) l.

Definition get {A : Type} (o : list (string * A)) (k : string) : Property A :=
  match own_property o k with
  | Some a => Own a
  | None => if mem k Object_prototype_keys then Inherited k else Undefined
  end.

End JsObject.

Import JsObject.

(** ** The sport registry (unifiedSports) *)

Module UNIFIED_SPORTS.
Definition ALL := "all".
Definition NBA := "nba".
Definition WNBA := "wnba".
Definition NFL := "nfl".
Definition MLB := "mlb".
Definition NHL := "nhl".
Definition SOCCER := "soccer".
Definition PGA := "pga".
Definition TENNIS := "tennis".
Definition ESPORTS := "esports".
Definition MMA := "mma".
Definition COLLEGE_FOOTBALL := "college-football".
Definition COLLEGE_BASKETBALL := "college-basketball".
End UNIFIED_SPORTS.

Inductive Category : Type :=
| professional | college | international | esports | other.

Record Season : Type := {
  season_start : string;
  season_end : string;
  isYearRound : bool
}.

(** The descriptor of a sport.  The emoji, colour and the lists of popular
    statistics, positions and markets are presentation data that no function
    of this development reads; they are left out. *)
Record SportConfig : Type := {
  id : string;
  name : string;
  displayName : string;
  abbreviation : string;
  isActive : bool;
  category : Category;
  season : Season
}.

Definition mkSport (i d a : string) (c : Category) (s e : string) (y : bool) : SportConfig :=
  {| id := i; name := i; displayName := d; abbreviation := a; isActive := true;
     category := c;
     season := {| season_start := s; season_end := e; isYearRound := y |} |}.

Definition SPORT_CONFIGS : list (string * SportConfig) :=
  [ (UNIFIED_SPORTS.ALL,
     mkSport UNIFIED_SPORTS.ALL "All Sports" "ALL" other "January" "December" true);
    (UNIFIED_SPORTS.NBA,
     mkSport UNIFIED_SPORTS.NBA "NBA Basketball" "NBA" professional "October" "June" false);
    (UNIFIED_SPORTS.WNBA,
     mkSport UNIFIED_SPORTS.WNBA "WNBA Basketball" "WNBA" professional "May" "October" false);
    (UNIFIED_SPORTS.NFL,
     mkSport UNIFIED_SPORTS.NFL "NFL Football" "NFL" professional "September" "February" false);
    (UNIFIED_SPORTS.MLB,
     mkSport UNIFIED_SPORTS.MLB "MLB Baseball" "MLB" professional "March" "October" false);
    (UNIFIED_SPORTS.NHL,
     mkSport UNIFIED_SPORTS.NHL "NHL Hockey" "NHL" professional "October" "June" false);
    (UNIFIED_SPORTS.SOCCER,
     mkSport UNIFIED_SPORTS.SOCCER "Soccer/Football" "SOC" international "August" "May" true);
    (UNIFIED_SPORTS.PGA,
     mkSport UNIFIED_SPORTS.PGA "PGA Golf" "PGA" professional "January" "November" false);
    (UNIFIED_SPORTS.TENNIS,
     mkSport UNIFIED_SPORTS.TENNIS "Tennis" "TEN" professional "January" "November" false);
    (UNIFIED_SPORTS.ESPORTS,
     mkSport UNIFIED_SPORTS.ESPORTS "Esports" "ESP" esports "January" "December" true);
    (UNIFIED_SPORTS.MMA,
     mkSport UNIFIED_SPORTS.MMA "Mixed Martial Arts" "MMA" professional "January" "December" true);
    (UNIFIED_SPORTS.COLLEGE_FOOTBALL,
     mkSport UNIFIED_SPORTS.COLLEGE_FOOTBALL "College Football" "CFB" college "August" "January" false);
    (UNIFIED_SPORTS.COLLEGE_BASKETBALL,
     mkSport UNIFIED_SPORTS.COLLEGE_BASKETBALL "College Basketball" "CBB" college "November" "April" false) ].

(** The ids registered in the table: its own keys. *)
Definition registry_ids : list string := map fst SPORT_CONFIGS.

Definition is_registered (s : string) : bool := mem s registry_ids.

(** [SPORT_CONFIGS[sportId.toLowerCase()] || null]: every value the read can
    produce other than [undefined] is an object or a function, hence truthy,
    so [Undefined] stands for the [null] of the source. *)
Definition getSportConfig (sportId : string) : Property SportConfig :=
  let normalizedId := JsString.toLowerCase sportId in
  get SPORT_CONFIGS normalizedId.

Definition isValidSport (sportId : string) : bool :=
  match getSportConfig sportId with
  | Undefined => false
  | _ => true
  end.

(** [s.replace(/[-_\s]/g, "-")]: each hyphen, underscore or whitespace
    character becomes one hyphen. *)
Definition hyphenate_char (c : ascii) : ascii :=
  if Ascii.eqb c "-" || Ascii.eqb c "_" || JsString.is_whitespace c
  then "-"%char else c.

Definition hyphenate (s : string) : string := JsString.map_chars hyphenate_char s.

Definition normalizeSportId (sportId : string) : string :=
  let normalized := hyphenate (JsString.toLowerCase sportId) in
  if isValidSport normalized then normalized else UNIFIED_SPORTS.ALL.

(** ** Sport filtering utilities (sportFiltering) *)

(** Items that can be filtered by sport: anything with a [sport] field. *)
Class SportFilterable (T : Type) : Type := sport : T -> string.

#[export] Instance string_SportFilterable : SportFilterable string := fun s => s.

Record SportFilterOptions : Type := {
  opt_sport : string;
  includeAll : option bool;
  caseSensitive : option bool;
  allowPartialMatch : option bool;
  mapSportNames : option (list (string * string))
}.

(** A destructuring default [{ x = d } = options]. *)
Definition or_default {A : Type} (o : option A) (d : A) : A :=
  match o with Some a => a | None => d end.

(** The value held by [itemSport] after the optional renaming: a string, or a
    member of [Object.prototype] when the tag names an inherited property. *)
Inductive ItemSport : Type :=
| SportString (s : string)
| SportObject (name : string).

Definition apply_mapping (m : list (string * string)) (itemSport : string) : ItemSport :=
  match get m itemSport with
  | Own s => if JsString.truthy s then SportString s else SportString itemSport
  | Inherited k => SportObject k
  | Undefined => SportString itemSport
  end.

(** The callback of [items.filter] in [filterBySport]. *)
Definition sport_matches (caseSensitive allowPartialMatch : bool)
    (m : list (string * string)) (normalizedTargetSport : string)
    (itemSport0 : string) : JsResult bool :=
  if negb (JsString.truthy itemSport0) then Ok false else
  match apply_mapping m itemSport0 with
  | SportString itemSport =>
      let normalizedItemSport :=
        if caseSensitive then itemSport else JsString.toLowerCase itemSport in
      if String.eqb normalizedItemSport normalizedTargetSport then Ok true
      else if allowPartialMatch then
        Ok (JsString.includes normalizedItemSport normalizedTargetSport ||
            JsString.includes normalizedTargetSport normalizedItemSport)
      else Ok false
  | SportObject k =>
      if caseSensitive then
        if allowPartialMatch
        then Throw (TypeError "normalizedItemSport.includes is not a function")
        else Ok false
      else Throw (TypeError "itemSport.toLowerCase is not a function")
  end.

(** [Array.prototype.filter] with a callback that may throw. *)
Fixpoint array_filter {T : Type} (f : T -> JsResult bool) (items : list T)
  : JsResult (list T) :=
  match items with
  | [] => Ok []
  | item :: rest =>
      try! keep <- f item;
      try! rest' <- array_filter f rest;
      Ok (if keep then item :: rest' else rest')
  end.

Definition filterBySport {T : Type} `{SportFilterable T}
    (items : list T) (options : SportFilterOptions) : JsResult (list T) :=
  let target := opt_sport options in
  let includeAll := or_default (includeAll options) true in
  let caseSensitive := or_default (caseSensitive options) false in
  let allowPartialMatch := or_default (allowPartialMatch options) true in
  let mapSportNames := or_default (mapSportNames options) [] in
  if includeAll &&
     (String.eqb target UNIFIED_SPORTS.ALL || String.eqb target "all" ||
      negb (JsString.truthy target))
  then Ok items
  else
    let normalizedTargetSport :=
      if caseSensitive then target else JsString.toLowerCase target in
    array_filter
      (fun item => sport_matches caseSensitive allowPartialMatch mapSportNames
                     normalizedTargetSport (sport item))
      items.

Definition COMMON_SPORT_MAPPINGS : list (string * string) :=
  [ ("basketball", UNIFIED_SPORTS.NBA);
    ("football", UNIFIED_SPORTS.NFL);
    ("baseball", UNIFIED_SPORTS.MLB);
    ("hockey", UNIFIED_SPORTS.NHL);
    ("golf", UNIFIED_SPORTS.PGA);
    ("mma", UNIFIED_SPORTS.MMA);
    ("ufc", UNIFIED_SPORTS.MMA);
    ("esport", UNIFIED_SPORTS.ESPORTS);
    ("gaming", UNIFIED_SPORTS.ESPORTS);
    ("NBA", UNIFIED_SPORTS.NBA);
    ("NFL", UNIFIED_SPORTS.NFL);
    ("MLB", UNIFIED_SPORTS.MLB);
    ("NHL", UNIFIED_SPORTS.NHL);
    ("WNBA", UNIFIED_SPORTS.WNBA);
    ("PGA", UNIFIED_SPORTS.PGA);
    ("MMA", UNIFIED_SPORTS.MMA);
    ("Soccer", UNIFIED_SPORTS.SOCCER);
    ("Tennis", UNIFIED_SPORTS.TENNIS);
    ("Esports", UNIFIED_SPORTS.ESPORTS);
    ("futbol", UNIFIED_SPORTS.SOCCER);
    ("football_eu", UNIFIED_SPORTS.SOCCER);
    ("american_football", UNIFIED_SPORTS.NFL) ].

Record FilterSportDataOptions : Type := {
  useCommonMappings : option bool;
  fsd_allowPartialMatch : option bool;
  fsd_caseSensitive : option bool
}.

(** The options object [{}], the default of the third parameter. *)
Definition default_options : FilterSportDataOptions :=
  {| useCommonMappings := None; fsd_allowPartialMatch := None;
     fsd_caseSensitive := None |}.

Definition filterSportData {T : Type} `{SportFilterable T}
    (items : list T) (selectedSport : string) (options : FilterSportDataOptions)
  : JsResult (list T) :=
  let useCommonMappings := or_default (useCommonMappings options) true in
  let allowPartialMatch := or_default (fsd_allowPartialMatch options) true in
  let caseSensitive := or_default (fsd_caseSensitive options) false in
  filterBySport items
    {| opt_sport := selectedSport;
       includeAll := Some true;
       caseSensitive := Some caseSensitive;
       allowPartialMatch := Some allowPartialMatch;
       mapSportNames :=
         Some (if useCommonMappings then COMMON_SPORT_MAPPINGS else []) |}.

Definition isValidSportFilter (s : string) : bool :=
  if negb (JsString.truthy s) then false
  else if String.eqb s UNIFIED_SPORTS.ALL || String.eqb s "all" then true
  else isValidSport s.

Definition normalizeSportFilter (s : string) : string :=
  if negb (JsString.truthy s) || String.eqb s "all" then UNIFIED_SPORTS.ALL
  else normalizeSportId s.

(** A [Set<string>] keeps its members in insertion order; [add] of a member
    already present changes nothing. *)
Definition set_add (s : string) (members : list string) : list string :=
  if mem s members then members else members ++ [s].

(** ** The JavaScript engine

    What the code takes from its runtime: the
    sorting algorithm behind [Array.prototype.sort] (its comparator answers a
    number, [None] standing for [NaN]), the collation of [localeCompare], the
    numeric reading of a string ([None] for [NaN]), the rendering of a date
    and the successive draws of [Math.random], already rendered. *)
Record Engine : Type := {
  array_sort : forall A : Type, (A -> A -> option Z) -> list A -> list A;
  localeCompare : string -> string -> Z;
  parse_number : string -> option Z;
  toISOString : Z -> string;
  Math_random : nat -> string
}.

Arguments array_sort e {A} cmp l.

(** Whatever the comparator, sorting rearranges the array. *)
Definition sort_rearranges (e : Engine) : Prop :=
  forall (A : Type) (cmp : A -> A -> option Z) (l : list A),
    Permutation (array_sort e cmp l) l.

Section ExtractUniqueSports.

Variable engine : Engine.

Record ExtractOptions : Type := {
  ex_includeAll : option bool;
  ex_normalize : option bool;
  ex_sort : option bool
}.

Definition extract_defaults : ExtractOptions :=
  {| ex_includeAll := None; ex_normalize := None; ex_sort := None |}.

Definition sports_comparator (a b : string) : option Z :=
  if String.eqb a UNIFIED_SPORTS.ALL then Some (-1)
  else if String.eqb b UNIFIED_SPORTS.ALL then Some 1
  else Some (localeCompare engine a b).

(** The [forEach] loop filling [sportsSet]. *)
Definition collect_sports {T : Type} `{SportFilterable T}
    (normalize : bool) (items : list T) : list string :=
  fold_left
    (fun sportsSet item =>
       if JsString.truthy (sport item)
       then set_add (if normalize then normalizeSportId (sport item)
                     else sport item) sportsSet
       else sportsSet)
    items [].

Definition extractUniqueSports {T : Type} `{SportFilterable T}
    (items : list T) (options : ExtractOptions) : list string :=
  let includeAll := or_default (ex_includeAll options) true in
  let normalize := or_default (ex_normalize options) true in
  let sort := or_default (ex_sort options) true in
  let sports := collect_sports normalize items in
  let sports := if includeAll then UNIFIED_SPORTS.ALL :: sports else sports in
  if sort then array_sort engine sports_comparator sports else sports.

End ExtractUniqueSports.

(** ** Values read through [any] *)

(** [x || d] on a number, a string and an array. *)
Definition num_or (x : option Z) (d : Z) : Z :=
  match x with
  | Some z => if z =? 0 then d else z
  | None => d
  end.

Definition str_or (x : option string) (d : string) : string :=
  match x with
  | Some s => if JsString.truthy s then s else d
  | None => d
  end.

(** The first truthy of two optional numbers, if any. *)
Definition num_first (x y : option Z) : option Z :=
  match x with
  | Some z => if z =? 0 then y else Some z
  | None => y
  end.

Definition str_first (x y : option string) : option string :=
  match x with
  | Some s => if JsString.truthy s then Some s else y
  | None => y
  end.

(** The value of a dynamic field read [(a as any)[k]]. *)
Inductive JsValue : Type :=
| VUndefined
| VNumber (z : Z)
| VString (s : string)
| VNumbers (l : list Z)
| VObject (name : string).

Definition value_truthy (v : JsValue) : bool :=
  match v with
  | VUndefined => false
  | VNumber z => negb (z =? 0)
  | VString s => JsString.truthy s
  | VNumbers _ => true
  | VObject _ => true
  end.

Definition value_or (v d : JsValue) : JsValue :=
  if value_truthy v then v else d.

Definition opt_number (o : option Z) : JsValue :=
  match o with Some z => VNumber z | None => VUndefined end.

(** A read of a record's field by name: the fields of the record first, the
    inherited properties next. *)
Definition read_field (fields : list (string * JsValue)) (k : string) : JsValue :=
  match get fields k with
  | Own v => v
  | Inherited n => VObject n
  | Undefined => VUndefined
  end.

Section Coercion.

Variable engine : Engine.

(** [ToNumber]; [None] is [NaN]. *)
Definition ToNumber (v : JsValue) : option Z :=
  match v with
  | VUndefined => None
  | VNumber z => Some z
  | VString s => parse_number engine s
  | VNumbers [] => Some 0
  | VNumbers [z] => Some z
  | VNumbers _ => None
  | VObject _ => None
  end.

Definition js_sub (a b : JsValue) : option Z :=
  match ToNumber a, ToNumber b with
  | Some x, Some y => Some (x - y)
  | _, _ => None
  end.

End Coercion.

(** [a.slice(0, n)], for an integer [n]. *)
Definition slice0 {A : Type} (l : list A) (n : Z) : list A :=
  if 0 <=? n then firstn (Z.to_nat n) l
  else firstn (Z.to_nat (Z.of_nat (length l) + n)) l.

(** ** Unified records (UnifiedDataService) *)

Module Opportunity.

(** A betting opportunity as the upstream client delivers it: every field
    may be missing. *)
Record Raw : Type := {
  raw_id : option string;
  raw_sport : option string;
  raw_event : option string;
  raw_game : option string;
  raw_market : option string;
  raw_betType : option string;
  raw_line : option Z;
  raw_odds : option Z;
  raw_bookmaker : option string;
  raw_expectedValue : option Z;
  raw_edge : option Z;
  raw_confidence : option Z;
  raw_riskLevel : option string;
  raw_category : option string;
  raw_expires : option string
}.

Record UnifiedBettingOpportunity : Type := {
  id : string;
  sport : string;
  game : string;
  event : string;
  market : string;
  betType : string;
  line : Z;
  odds : Z;
  bookmaker : string;
  expectedValue : Z;
  confidence : Z;
  edge : Z;
  stake : option Z;
  potentialProfit : option Z;
  riskLevel : string;
  category : string;
  expires : string;
  timestamp : Z
}.

Definition fields (o : UnifiedBettingOpportunity) : list (string * JsValue) :=
  [ ("id", VString (id o)); ("sport", VString (sport o));
    ("game", VString (game o)); ("event", VString (event o));
    ("market", VString (market o)); ("betType", VString (betType o));
    ("line", VNumber (line o)); ("odds", VNumber (odds o));
    ("bookmaker", VString (bookmaker o));
    ("expectedValue", VNumber (expectedValue o));
    ("confidence", VNumber (confidence o)); ("edge", VNumber (edge o));
    ("stake", opt_number (stake o));
    ("potentialProfit", opt_number (potentialProfit o));
    ("riskLevel", VString (riskLevel o)); ("category", VString (category o));
    ("expires", VString (expires o)); ("timestamp", VNumber (timestamp o)) ].

End Opportunity.

Module PlayerProp.

Record Raw : Type := {
  raw_id : option string;
  raw_player : option string;
  raw_team : option string;
  raw_position : option string;
  raw_stat : option string;
  raw_line : option Z;
  raw_overOdds : option Z;
  raw_underOdds : option Z;
  raw_gameTime : option string;
  raw_opponent : option string;
  raw_sport : option string;
  raw_confidence : option Z;
  raw_projection : option Z;
  raw_edge : option Z;
  raw_pickType : option string;
  raw_reasoning : option string;
  raw_lastGameStats : option (list Z);
  raw_seasonAvg : option Z;
  raw_recentForm : option string;
  raw_injuryStatus : option string;
  raw_weatherImpact : option Z;
  raw_homeAwayFactor : option Z
}.

Record UnifiedPlayerProp : Type := {
  id : string;
  player : string;
  team : string;
  position : string;
  stat : string;
  line : Z;
  overOdds : Z;
  underOdds : Z;
  gameTime : string;
  opponent : string;
  sport : string;
  confidence : Z;
  projection : Z;
  edge : Z;
  pickType : string;
  reasoning : string;
  lastGameStats : list Z;
  seasonAvg : Z;
  recentForm : string;
  injuryStatus : string;
  weatherImpact : option Z;
  homeAwayFactor : Z;
  timestamp : Z
}.

Definition fields (p : UnifiedPlayerProp) : list (string * JsValue) :=
  [ ("id", VString (id p)); ("player", VString (player p));
    ("team", VString (team p)); ("position", VString (position p));
    ("stat", VString (stat p)); ("line", VNumber (line p));
    ("overOdds", VNumber (overOdds p)); ("underOdds", VNumber (underOdds p));
    ("gameTime", VString (gameTime p)); ("opponent", VString (opponent p));
    ("sport", VString (sport p)); ("confidence", VNumber (confidence p));
    ("projection", VNumber (projection p)); ("edge", VNumber (edge p));
    ("pickType", VString (pickType p)); ("reasoning", VString (reasoning p));
    ("lastGameStats", VNumbers (lastGameStats p));
    ("seasonAvg", VNumber (seasonAvg p));
    ("recentForm", VString (recentForm p));
    ("injuryStatus", VString (injuryStatus p));
    ("weatherImpact", opt_number (weatherImpact p));
    ("homeAwayFactor", VNumber (homeAwayFactor p));
    ("timestamp", VNumber (timestamp p)) ].

End PlayerProp.

Import Opportunity(UnifiedBettingOpportunity).
Import PlayerProp(UnifiedPlayerProp).

#[export] Instance opportunity_SportFilterable :
  SportFilterable UnifiedBettingOpportunity := Opportunity.sport.

#[export] Instance prop_SportFilterable :
  SportFilterable UnifiedPlayerProp := PlayerProp.sport.

Inductive SortOrder : Type := asc | desc.

(** A filter object: the values of its properties, and the names of its own
    properties in the order they were created, which [JSON.stringify]
    follows.  Two objects with the same values and a different order are
    different filter objects. *)
Record UnifiedDataFilters : Type := {
  f_sport : option string;
  minConfidence : option Z;
  maxResults : option Z;
  includeExpired : option bool;
  sortBy : option string;
  sortOrder : option SortOrder;
  key_order : list string
}.

(** The filter object [{}]. *)
Definition no_filters : UnifiedDataFilters :=
  {| f_sport := None; minConfidence := None; maxResults := None;
     includeExpired := None; sortBy := None; sortOrder := None;
     key_order := [] |}.

Record UnifiedApiResponse (A : Type) : Type := {
  success : bool;
  data : option (list A);
  count : option Z;
  filters : option UnifiedDataFilters;
  error : option string;
  timestamp : Z;
  cached : option bool
}.

Arguments success {A} _.
Arguments data {A} _.
Arguments count {A} _.
Arguments filters {A} _.
Arguments error {A} _.
Arguments timestamp {A} _.
Arguments cached {A} _.

(** ** The upstream client *)

Record ApiResponse (Raw : Type) : Type := {
  resp_success : bool;
  resp_data : option (list Raw);
  resp_error : option string
}.

Arguments resp_success {Raw} _.
Arguments resp_data {Raw} _.
Arguments resp_error {Raw} _.

Record BettingRequest : Type := {
  breq_sport : string;
  breq_minEdge : Z;
  breq_maxResults : Z
}.

Record PropsRequest : Type := {
  preq_sport : string;
  preq_minConfidence : Z
}.

(** The two calls of the client the facade uses: what the client answers to
    a request made at a given time.  A rejected promise is a [Throw] of the
    value it rejects with. *)
Record Api : Type := {
  api_getBettingOpportunities :
    Z -> BettingRequest -> JsResult (ApiResponse Opportunity.Raw);
  api_getPrizePicksProps :
    Z -> PropsRequest -> JsResult (ApiResponse PlayerProp.Raw)
}.

(** The client fails on every call: it rejects, or answers without success. *)
Definition failed_response {Raw : Type} (r : JsResult (ApiResponse Raw)) : Prop :=
  match r with
  | Throw _ => True
  | Ok resp => resp_success resp = false
  end.

Definition always_fails (api : Api) : Prop :=
  (forall t q, failed_response (api_getBettingOpportunities api t q)) /\
  (forall t q, failed_response (api_getPrizePicksProps api t q)).

(** The client never rejects with [undefined] or [null]. *)
Definition rejects_nullish {Raw : Type} (r : JsResult (ApiResponse Raw)) : bool :=
  match r with
  | Throw e => nullish e
  | Ok _ => false
  end.

Definition never_nullish (api : Api) : Prop :=
  (forall t q, rejects_nullish (api_getBettingOpportunities api t q) = false) /\
  (forall t q, rejects_nullish (api_getPrizePicksProps api t q) = false).

(** The error the facade's [try] block ends with when the client fails:
    the client's own, or the one thrown on an unsuccessful response. *)
Definition rejection {Raw : Type} (r : JsResult (ApiResponse Raw)) (msg : string)
  : JsError :=
  match r with
  | Throw e => e
  | Ok resp => Error (str_or (resp_error resp) msg)
  end.

(** ** The cache *)

Inductive Payload : Type :=
| PBets (r : UnifiedApiResponse UnifiedBettingOpportunity)
| PProps (r : UnifiedApiResponse UnifiedPlayerProp)
| PSports (l : list string).

Record CacheEntry : Type := {
  entry_data : Payload;
  entry_timestamp : Z;
  entry_ttl : Z
}.

Abbreviation Cache := (gmap string CacheEntry).

Definition CACHE_TTL : Z := 5 * 60 * 1000.

(** Each of the functions below takes the reading of [Date.now()] it makes
    as an argument [now]. *)
Definition isValidCacheEntry (now : Z) (entry : CacheEntry) : bool :=
  now - entry_timestamp entry <? entry_ttl entry.

Definition setCache (now : Z) (key : string) (d : Payload) (ttl : Z)
    (cache : Cache) : Cache :=
  <[key := {| entry_data := d; entry_timestamp := now; entry_ttl := ttl |}]> cache.

Definition getFromCache (now : Z) (key : string) (cache : Cache)
  : option Payload * Cache :=
  match cache !! key with
  | Some entry =>
      if isValidCacheEntry now entry then (Some (entry_data entry), cache)
      else (None, delete key cache)
  | None => (None, cache)
  end.

Definition clearCache (cache : Cache) : Cache := ∅.


(** ** The facade *)

(** How the promise of a facade method settles.  It resolves with the
    payload found in the cache (for the two fetching methods, spread into a
    new object with [cached: true]) or with a value built by this call, or
    it rejects. *)
Inductive Reply (R : Type) : Type :=
| FromCache (p : Payload)
| Fresh (r : R)
| Rejected (e : JsError).

Arguments FromCache {R} p.
Arguments Fresh {R} r.
Arguments Rejected {R} e.

(** The object the catch blocks return, for a caught value whose [message]
    can be read. *)
Definition failure {A : Type} (e : JsError) (now : Z) : UnifiedApiResponse A :=
  {| success := false; data := Some []; count := Some 0; filters := None;
     error := match message e with Ok m => m | Throw _ => None end;
     timestamp := now; cached := None |}.

(** The catch blocks of the two fetching methods: they build their object
    with [(error as Error).message], and the exception of that read, if
    any, rejects the promise. *)
Definition caught {A : Type} (e : JsError) (now : Z)
  : Reply (UnifiedApiResponse A) :=
  match message e with
  | Ok _ => Fresh (failure e now)
  | Throw exception => Rejected exception
  end.

Definition succeeded {A : Type} (items : list A) (f : UnifiedDataFilters)
    (now : Z) : UnifiedApiResponse A :=
  {| success := true; data := Some items;
     count := Some (Z.of_nat (length items)); filters := Some f;
     error := None; timestamp := now; cached := None |}.

(** The sports named by the [data] of a cached payload read as a response. *)
Definition payload_sports (p : Payload) : option (list string) :=
  match p with
  | PBets r => map Opportunity.sport <$> data r
  | PProps r => map PlayerProp.sport <$> data r
  | PSports _ => None
  end.

Definition reply_sports {A : Type} `{SportFilterable A}
    (r : Reply (UnifiedApiResponse A)) : option (list string) :=
  match r with
  | FromCache p => payload_sports p
  | Fresh resp => map sport <$> data resp
  | Rejected _ => None
  end.

(** [if (r.data) r.data.forEach(x => sportsSet.add(x.sport))] *)
Definition add_sports (sports : option (list string)) (sportsSet : list string)
  : list string :=
  match sports with
  | Some l => fold_left (fun acc s => set_add s acc) l sportsSet
  | None => sportsSet
  end.

Definition fallback_sports : list string :=
  [ UNIFIED_SPORTS.ALL; UNIFIED_SPORTS.NBA; UNIFIED_SPORTS.NFL;
    UNIFIED_SPORTS.MLB; UNIFIED_SPORTS.NHL; UNIFIED_SPORTS.SOCCER ].

Section Facade.

Variable engine : Engine.
(** [JSON.stringify] on a filter object. *)
Variable JSON_stringify : UnifiedDataFilters -> string.
Variable api : Api.

Definition getCacheKey (endpoint : string) (params : UnifiedDataFilters) : string :=
  endpoint +:+ ":" +:+ JSON_stringify params.

(** [`${prefix}_${Date.now()}_${Math.random()}`], for the draw made at the
    [i]-th element. *)
Definition generated_id (prefix : string) (now : Z) (i : nat) : string :=
  prefix +:+ "_" +:+ pretty now +:+ "_" +:+ Math_random engine i.

Definition unify_opportunity (now : Z) (i : nat) (opp : Opportunity.Raw)
  : UnifiedBettingOpportunity :=
  let value :=
    num_or (num_first (Opportunity.raw_expectedValue opp)
                      (Opportunity.raw_edge opp)) 0 * 100 in
  {| Opportunity.id := str_or (Opportunity.raw_id opp) (generated_id "bet" now i);
     Opportunity.sport := str_or (Opportunity.raw_sport opp) "unknown";
     Opportunity.game :=
       str_or (str_first (Opportunity.raw_event opp) (Opportunity.raw_game opp))
              "Unknown Game";
     Opportunity.event :=
       str_or (str_first (Opportunity.raw_event opp) (Opportunity.raw_game opp))
              "Unknown Event";
     Opportunity.market := str_or (Opportunity.raw_market opp) "Unknown Market";
     Opportunity.betType :=
       str_or (str_first (Opportunity.raw_market opp) (Opportunity.raw_betType opp))
              "Unknown Bet";
     Opportunity.line :=
       num_or (num_first (Opportunity.raw_line opp) (Opportunity.raw_odds opp)) 0;
     Opportunity.odds := num_or (Opportunity.raw_odds opp) (-110);
     Opportunity.bookmaker := str_or (Opportunity.raw_bookmaker opp) "DraftKings";
     Opportunity.expectedValue := value;
     Opportunity.confidence := num_or (Opportunity.raw_confidence opp) 75;
     Opportunity.edge := value;
     Opportunity.stake := Some 0;
     Opportunity.potentialProfit := Some 0;
     Opportunity.riskLevel := str_or (Opportunity.raw_riskLevel opp) "medium";
     Opportunity.category := str_or (Opportunity.raw_category opp) "value";
     Opportunity.expires :=
       str_or (Opportunity.raw_expires opp)
              (toISOString engine (now + 24 * 60 * 60 * 1000));
     Opportunity.timestamp := now |}.

Definition unify_prop (now : Z) (i : nat) (prop : PlayerProp.Raw)
  : UnifiedPlayerProp :=
  {| PlayerProp.id := str_or (PlayerProp.raw_id prop) (generated_id "prop" now i);
     PlayerProp.player := str_or (PlayerProp.raw_player prop) "Unknown Player";
     PlayerProp.team := str_or (PlayerProp.raw_team prop) "Unknown Team";
     PlayerProp.position := str_or (PlayerProp.raw_position prop) "Unknown";
     PlayerProp.stat := str_or (PlayerProp.raw_stat prop) "Points";
     PlayerProp.line := num_or (PlayerProp.raw_line prop) 0;
     PlayerProp.overOdds := num_or (PlayerProp.raw_overOdds prop) (-110);
     PlayerProp.underOdds := num_or (PlayerProp.raw_underOdds prop) (-110);
     PlayerProp.gameTime :=
       str_or (PlayerProp.raw_gameTime prop) (toISOString engine now);
     PlayerProp.opponent := str_or (PlayerProp.raw_opponent prop) "Unknown Opponent";
     PlayerProp.sport := str_or (PlayerProp.raw_sport prop) "nba";
     PlayerProp.confidence := num_or (PlayerProp.raw_confidence prop) 75;
     PlayerProp.projection :=
       num_or (num_first (PlayerProp.raw_projection prop) (PlayerProp.raw_line prop)) 0;
     PlayerProp.edge := num_or (PlayerProp.raw_edge prop) 5;
     PlayerProp.pickType := str_or (PlayerProp.raw_pickType prop) "normal";
     PlayerProp.reasoning :=
       str_or (PlayerProp.raw_reasoning prop) "No reasoning provided";
     PlayerProp.lastGameStats := or_default (PlayerProp.raw_lastGameStats prop) [];
     PlayerProp.seasonAvg :=
       num_or (num_first (PlayerProp.raw_seasonAvg prop) (PlayerProp.raw_line prop)) 0;
     PlayerProp.recentForm := str_or (PlayerProp.raw_recentForm prop) "neutral";
     PlayerProp.injuryStatus := str_or (PlayerProp.raw_injuryStatus prop) "healthy";
     PlayerProp.weatherImpact := PlayerProp.raw_weatherImpact prop;
     PlayerProp.homeAwayFactor := num_or (PlayerProp.raw_homeAwayFactor prop) 1;
     PlayerProp.timestamp := now |}.

(** The comparator of the sorting step. *)
Definition sort_comparator {A : Type} (fields : A -> list (string * JsValue))
    (sortBy : string) (order : option SortOrder) (a b : A) : option Z :=
  let aVal := value_or (read_field (fields a) sortBy) (VNumber 0) in
  let bVal := value_or (read_field (fields b) sortBy) (VNumber 0) in
  let direction := match order with Some asc => 1 | _ => -1 end in
  (fun d => d * direction) <$> js_sub engine bVal aVal.

(** The steps both fetching methods apply to the unified records: sport
    filter, confidence filter, sort, limit. *)
Definition shape {A : Type} `{SportFilterable A}
    (fields : A -> list (string * JsValue)) (confidence : A -> Z)
    (f : UnifiedDataFilters) (items : list A) : JsResult (list A) :=
  try! items <-
    (match f_sport f with
     | Some s =>
         if JsString.truthy s && negb (String.eqb s UNIFIED_SPORTS.ALL)
         then filterSportData items s
                {| useCommonMappings := Some true;
                   fsd_allowPartialMatch := Some true;
                   fsd_caseSensitive := Some false |}
         else Ok items
     | None => Ok items
     end);
  let items :=
    match minConfidence f with
    | Some m => if m =? 0 then items
                else List.filter (fun x => m <=? confidence x) items
    | None => items
    end in
  let items :=
    match sortBy f with
    | Some k => if JsString.truthy k
                then array_sort engine (sort_comparator fields k (sortOrder f)) items
                else items
    | None => items
    end in
  let items :=
    match maxResults f with
    | Some n => if n =? 0 then items else slice0 items n
    | None => items
    end in
  Ok items.

Definition normalized_sport (f : UnifiedDataFilters) : string :=
  match f_sport f with
  | Some s => if JsString.truthy s then normalizeSportFilter s
              else UNIFIED_SPORTS.ALL
  | None => UNIFIED_SPORTS.ALL
  end.

(** [if (!response.success || !response.data) throw new Error(...)] *)
Definition checked {Raw : Type} (response : ApiResponse Raw) (msg : string)
  : JsResult (list Raw) :=
  match resp_success response, resp_data response with
  | true, Some d => Ok d
  | _, _ => Throw (Error (str_or (resp_error response) msg))
  end.

(** The body of the [try] of [getBettingOpportunities], up to the records
    to return; the request is made at [t0] and [now] is the time once the
    client has answered. *)
Definition betting_request (f : UnifiedDataFilters) : BettingRequest :=
  {| breq_sport := normalized_sport f; breq_minEdge := 2;
     breq_maxResults := num_or (maxResults f) 50 |}.

Definition props_request (f : UnifiedDataFilters) : PropsRequest :=
  {| preq_sport := normalized_sport f;
     preq_minConfidence := num_or (minConfidence f) 70 |}.

Definition fetch_opportunities (f : UnifiedDataFilters) (t0 now : Z)
  : JsResult (list UnifiedBettingOpportunity) :=
  try! response <- api_getBettingOpportunities api t0 (betting_request f);
  try! raw <- checked response "Failed to fetch betting opportunities";
  shape Opportunity.fields Opportunity.confidence f
        (imap (unify_opportunity now) raw).

Definition fetch_props (f : UnifiedDataFilters) (t0 now : Z)
  : JsResult (list UnifiedPlayerProp) :=
  try! response <- api_getPrizePicksProps api t0 (props_request f);
  try! raw <- checked response "Failed to fetch player props";
  shape PlayerProp.fields PlayerProp.confidence f
        (imap (unify_prop now) raw).

(** [t0] is the time of the cache lookup, [t1] the time once the client has
    answered. *)
Definition getBettingOpportunities (f : UnifiedDataFilters) (t0 t1 : Z)
    (cache : Cache)
  : Reply (UnifiedApiResponse UnifiedBettingOpportunity) * Cache :=
  let cacheKey := getCacheKey "betting-opportunities" f in
  let '(cached, cache) := getFromCache t0 cacheKey cache in
  match cached with
  | Some p => (FromCache p, cache)
  | None =>
      match fetch_opportunities f t0 t1 with
      | Ok opportunities =>
          let result := succeeded opportunities f t1 in
          (Fresh result, setCache t1 cacheKey (PBets result) CACHE_TTL cache)
      | Throw e => (caught e t1, cache)
      end
  end.

Definition getPlayerProps (f : UnifiedDataFilters) (t0 t1 : Z) (cache : Cache)
  : Reply (UnifiedApiResponse UnifiedPlayerProp) * Cache :=
  let cacheKey := getCacheKey "player-props" f in
  let '(cached, cache) := getFromCache t0 cacheKey cache in
  match cached with
  | Some p => (FromCache p, cache)
  | None =>
      match fetch_props f t0 t1 with
      | Ok props =>
          let result := succeeded props f t1 in
          (Fresh result, setCache t1 cacheKey (PProps result) CACHE_TTL cache)
      | Throw e => (caught e t1, cache)
      end
  end.

Definition hundred : UnifiedDataFilters :=
  {| f_sport := None; minConfidence := None; maxResults := Some 100;
     includeExpired := None; sortBy := None; sortOrder := None;
     key_order := ["maxResults"] |}.

(** [await Promise.all([b, p])]: the two replies when both promises
    resolve, the exception when one rejects. *)
Definition Promise_all {B P : Type} (b : Reply B) (p : Reply P)
  : JsResult (Reply B * Reply P) :=
  match b, p with
  | Rejected e, _ => Throw e
  | _, Rejected e => Throw e
  | _, _ => Ok (b, p)
  end.

(** The three cache lookups happen at [t0], before any answer; the client
    answers the two requests at [tb] and [tp], and the list is stored at
    [t2].  The two fetches run concurrently; they read and write the cache
    under two different keys, so running one after the other leaves the
    same cache.  The catch block stores nothing: the cache it leaves is the
    one the two fetches leave. *)
Definition getAvailableSports (t0 tb tp t2 : Z) (cache : Cache)
  : Reply (list string) * Cache :=
  let cacheKey := "available-sports" in
  let '(cached, cache) := getFromCache t0 cacheKey cache in
  match cached with
  | Some p => (FromCache p, cache)
  | None =>
      let '(bettingPromise, cache) := getBettingOpportunities hundred t0 tb cache in
      let '(propsPromise, cache) := getPlayerProps hundred t0 tp cache in
      match Promise_all bettingPromise propsPromise with
      | Ok (bettingResponse, propsResponse) =>
          let sportsSet := add_sports (reply_sports bettingResponse) [] in
          let sportsSet := add_sports (reply_sports propsResponse) sportsSet in
          let availableSports := UNIFIED_SPORTS.ALL :: sportsSet in
          (Fresh availableSports,
           setCache t2 cacheKey (PSports availableSports) (2 * 60 * 1000) cache)
      | Throw _ => (Fresh fallback_sports, cache)
      end
  end.

End Facade.

(** ** Histories of a service

    A service starts with an empty cache; its state after a history of calls
    is the cache they leave. *)

Inductive Call : Type :=
| CallBettingOpportunities (f : UnifiedDataFilters) (t0 t1 : Z)
| CallPlayerProps (f : UnifiedDataFilters) (t0 t1 : Z)
| CallAvailableSports (t0 tb tp t2 : Z)
| CallClearCache.

Definition run_call (engine : Engine) (JSON_stringify : UnifiedDataFilters -> string)
    (api : Api) (cache : Cache) (c : Call) : Cache :=
  match c with
  | CallBettingOpportunities f t0 t1 =>
      snd (getBettingOpportunities engine JSON_stringify api f t0 t1 cache)
  | CallPlayerProps f t0 t1 =>
      snd (getPlayerProps engine JSON_stringify api f t0 t1 cache)
  | CallAvailableSports t0 tb tp t2 =>
      snd (getAvailableSports engine JSON_stringify api t0 tb tp t2 cache)
  | CallClearCache => clearCache cache
  end.

Definition service_after (engine : Engine)
    (JSON_stringify : UnifiedDataFilters -> string) (api : Api)
    (history : list Call) : Cache :=
  fold_left (run_call engine JSON_stringify api) history ∅.

(** Every entry of the cache is the wildcard list under the key of
    [getAvailableSports]. *)
Definition wildcard_only (cache : Cache) : Prop :=
  forall k e, cache !! k = Some e ->
    k = "available-sports" /\ entry_data e = PSports [UNIFIED_SPORTS.ALL].

(** The list a reply of [getAvailableSports] carries. *)
Definition reply_list (r : Reply (list string)) : option (list string) :=
  match r with
  | FromCache (PSports l) => Some l
  | FromCache _ => None
  | Fresh l => Some l
  | Rejected _ => None
  end.

(** ** A small engine to run the definitions on

    An insertion sort that keeps equal elements in order and reads [NaN] as
    zero, the comparison of code units for [localeCompare], decimal integers
    for the numeric reading of a string, ISO dates of the years 0 to 9999 and
    a constant draw.  The filter object is printed with its own properties
    in their order. *)

Module Reference.

Fixpoint insert {A : Type} (cmp : A -> A -> option Z) (x : A) (l : list A) : list A :=
  match l with
  | [] => [x]
  | y :: l' => if or_default (cmp x y) 0 <=? 0 then x :: y :: l'
               else y :: insert cmp x l'
  end.

Definition sort (A : Type) (cmp : A -> A -> option Z) (l : list A) : list A :=
  fold_right (insert cmp) [] l.

Definition compare_strings (a b : string) : Z :=
  match String.compare a b with
  | Lt => -1
  | Eq => 0
  | Gt => 1
  end.

Definition is_digit (c : ascii) : bool :=
  (48 <=? JsString.code c)%N && (JsString.code c <=? 57)%N.

Fixpoint digits (acc : Z) (s : string) : option Z :=
  match s with
  | EmptyString => Some acc
  | String c s' =>
      if is_digit c
      then digits (10 * acc + Z.of_N (JsString.code c) - 48) s'
      else None
  end.

Definition parse (s : string) : option Z :=
  match s with
  | EmptyString => Some 0
  | String "-" (String c s') => Z.opp <$> digits 0 (String c s')
  | _ => digits 0 s
  end.

(** [n], at least [w] digits wide. *)
Definition padded (w : nat) (n : Z) : string :=
  let s := pretty n in
  String.concat EmptyString (repeat "0" (w - String.length s)) +:+ s.

Definition iso (t : Z) : string :=
  let ms := t mod 1000 in
  let secs := t / 1000 in
  let s := secs mod 60 in
  let mi := (secs / 60) mod 60 in
  let h := (secs / 3600) mod 24 in
  let z := secs / 86400 + 719468 in
  let era := z / 146097 in
  let doe := z mod 146097 in
  let yoe := (doe - doe / 1460 + doe / 36524 - doe / 146096) / 365 in
  let doy := doe - (365 * yoe + yoe / 4 - yoe / 100) in
  let mp := (5 * doy + 2) / 153 in
  let d := doy - (153 * mp + 2) / 5 + 1 in
  let m := if mp <? 10 then mp + 3 else mp - 9 in
  let y := yoe + era * 400 + (if m <=? 2 then 1 else 0) in
  padded 4 y +:+ "-" +:+ padded 2 m +:+ "-" +:+ padded 2 d +:+ "T" +:+
  padded 2 h +:+ ":" +:+ padded 2 mi +:+ ":" +:+ padded 2 s +:+ "." +:+
  padded 3 ms +:+ "Z".

Definition engine : Engine :=
  {| array_sort := sort;
     localeCompare := compare_strings;
     parse_number := parse;
     toISOString := iso;
     Math_random := fun _ => "0.5" |}.

Definition quote_char : ascii := ascii_of_N 34.
Definition backslash : ascii := ascii_of_N 92.

Fixpoint escaped (s : string) : string :=
  match s with
  | EmptyString => EmptyString
  | String c s' =>
      if Ascii.eqb c quote_char || Ascii.eqb c backslash
      then String backslash (String c (escaped s'))
      else String c (escaped s')
  end.

Definition quoted (s : string) : string :=
  String quote_char (escaped s) +:+ String quote_char EmptyString.

Definition member {A : Type} (k : string) (show : A -> string) (o : option A)
  : list string :=
  match o with
  | Some a => [quoted k +:+ ":" +:+ show a]
  | None => []
  end.

(** The member printed for the own property [k], nothing when its value is
    [undefined]. *)
Definition member_named (f : UnifiedDataFilters) (k : string) : list string :=
  if String.eqb k "sport" then member k quoted (f_sport f)
  else if String.eqb k "minConfidence" then member k pretty (minConfidence f)
  else if String.eqb k "maxResults" then member k pretty (maxResults f)
  else if String.eqb k "includeExpired"
  then member k (fun b : bool => if b then "true" else "false") (includeExpired f)
  else if String.eqb k "sortBy" then member k quoted (sortBy f)
  else if String.eqb k "sortOrder"
  then member k (fun o => match o with asc => quoted "asc" | desc => quoted "desc" end)
         (sortOrder f)
  else [].

Definition stringify (f : UnifiedDataFilters) : string :=
  "{" +:+ String.concat "," (flat_map (member_named f) (key_order f)) +:+ "}".

(** The same filters written in two orders:
    [{ sport: "nba", maxResults: 5 }] and [{ maxResults: 5, sport: "nba" }]. *)
Definition nba_five : UnifiedDataFilters :=
  {| f_sport := Some "nba"; minConfidence := None; maxResults := Some 5;
     includeExpired := None; sortBy := None; sortOrder := None;
     key_order := ["sport"; "maxResults"] |}.

Definition five_nba : UnifiedDataFilters :=
  {| f_sport := Some "nba"; minConfidence := None; maxResults := Some 5;
     includeExpired := None; sortBy := None; sortOrder := None;
     key_order := ["maxResults"; "sport"] |}.

(** A client whose every call rejects with the value [e]. *)
Definition rejecting (e : JsError) : Api :=
  {| api_getBettingOpportunities := fun _ _ => Throw e;
     api_getPrizePicksProps := fun _ _ => Throw e |}.

(** A client that is down, one that answers until time 1000 and is down
    afterwards, and one that answers with two props. *)
Definition down : Api :=
  {| api_getBettingOpportunities := fun _ _ => Throw (Error "Network Error");
     api_getPrizePicksProps := fun _ _ => Throw (Error "Network Error") |}.

Definition answer {Raw : Type} (l : list Raw) : JsResult (ApiResponse Raw) :=
  Ok {| resp_success := true; resp_data := Some l; resp_error := None |}.

Definition flaky : Api :=
  {| api_getBettingOpportunities :=
       fun t _ => if t <? 1000 then answer [] else Throw (Error "Network Error");
     api_getPrizePicksProps :=
       fun t _ => if t <? 1000 then answer [] else Throw (Error "Network Error") |}.

Definition raw_prop (player : string) (confidence : Z) : PlayerProp.Raw :=
  {| PlayerProp.raw_id := Some player;
     PlayerProp.raw_player := Some player;
     PlayerProp.raw_team := None;
     PlayerProp.raw_position := None;
     PlayerProp.raw_stat := None;
     PlayerProp.raw_line := None;
     PlayerProp.raw_overOdds := None;
     PlayerProp.raw_underOdds := None;
     PlayerProp.raw_gameTime := None;
     PlayerProp.raw_opponent := None;
     PlayerProp.raw_sport := None;
     PlayerProp.raw_confidence := Some confidence;
     PlayerProp.raw_projection := None;
     PlayerProp.raw_edge := None;
     PlayerProp.raw_pickType := None;
     PlayerProp.raw_reasoning := None;
     PlayerProp.raw_lastGameStats := None;
     PlayerProp.raw_seasonAvg := None;
     PlayerProp.raw_recentForm := None;
     PlayerProp.raw_injuryStatus := None;
     PlayerProp.raw_weatherImpact := None;
     PlayerProp.raw_homeAwayFactor := None |}.

Definition two_props : Api :=
  {| api_getBettingOpportunities := fun _ _ => answer [];
     api_getPrizePicksProps :=
       fun _ _ => answer [raw_prop "p1" 99; raw_prop "p2" 80] |}.

Definition raw_opportunity (name sport : string) (confidence : Z)
  : Opportunity.Raw :=
  {| Opportunity.raw_id := Some name;
     Opportunity.raw_sport := Some sport;
     Opportunity.raw_event := None;
     Opportunity.raw_game := None;
     Opportunity.raw_market := None;
     Opportunity.raw_betType := None;
     Opportunity.raw_line := None;
     Opportunity.raw_odds := None;
     Opportunity.raw_bookmaker := None;
     Opportunity.raw_expectedValue := None;
     Opportunity.raw_edge := None;
     Opportunity.raw_confidence := Some confidence;
     Opportunity.raw_riskLevel := None;
     Opportunity.raw_category := None;
     Opportunity.raw_expires := Some "2030-01-01T00:00:00.000Z" |}.

(** A client that answers with three betting opportunities and two props. *)
Definition busy : Api :=
  {| api_getBettingOpportunities :=
       fun _ _ => answer [raw_opportunity "b1" "nfl" 91;
                          raw_opportunity "b2" "NBA" 72;
                          raw_opportunity "b3" "nfl" 95];
     api_getPrizePicksProps :=
       fun _ _ => answer [raw_prop "p1" 99; raw_prop "p2" 80] |}.

(** Filters asking for a confidence of 90 and at most one record. *)
Definition confident_one : UnifiedDataFilters :=
  {| f_sport := None; minConfidence := Some 90; maxResults := Some 1;
     includeExpired := None; sortBy := Some "confidence"; sortOrder := None;
     key_order := ["minConfidence"; "maxResults"; "sortBy"] |}.

(** The cache of a service that fetched the betting opportunities once, at
    time 0, from the client that is up until time 1000. *)
Definition after_one_fetch : Cache :=
  service_after engine stringify flaky [CallBettingOpportunities no_filters 0 1].

End Reference.

(** ** The remaining utilities of sportFiltering *)

(** [{ sport: targetSport, ...options }], for options without a sport. *)
Definition with_sport (targetSport : string) (options : SportFilterOptions)
  : SportFilterOptions :=
  {| opt_sport := targetSport;
     includeAll := includeAll options;
     caseSensitive := caseSensitive options;
     allowPartialMatch := allowPartialMatch options;
     mapSportNames := mapSportNames options |}.

(** The predicate returned by [createSportFilter]. *)
Definition createSportFilter {T : Type} `{SportFilterable T}
    (targetSport : string) (options : SportFilterOptions) (item : T)
  : JsResult bool :=
  try! kept <- filterBySport [item] (with_sport targetSport options);
  Ok (0 <? Z.of_nat (length kept)).

(** The object [groups] is a finite map of its own properties; a read
    [groups[sport]] also sees the inherited ones, none of which has a
    [push]. *)
Definition group_key {T : Type} `{SportFilterable T} (normalize : bool)
    (item : T) : string :=
  if normalize then normalizeSportId (sport item) else sport item.

Definition group_item {T : Type} `{SportFilterable T} (normalize : bool)
    (groups : gmap string (list T)) (item : T) : JsResult (gmap string (list T)) :=
  if negb (JsString.truthy (sport item)) then Ok groups
  else
    let key := group_key normalize item in
    match groups !! key with
    | Some group => Ok (<[key := (group ++ [item])%list]> groups)
    | None =>
        if mem key Object_prototype_keys
        then Throw (TypeError "groups[sport].push is not a function")
        else Ok (<[key := [item]]> groups)
    end.

Definition groupBySport {T : Type} `{SportFilterable T}
    (items : list T) (normalize : option bool) : JsResult (gmap string (list T)) :=
  let normalize := or_default normalize true in
  fold_left (fun acc item => try! groups <- acc; group_item normalize groups item)
            items (Ok ∅).

Definition countBySport {T : Type} `{SportFilterable T}
    (items : list T) (normalize : option bool) : JsResult (gmap string nat) :=
  let normalize := or_default normalize true in
  try! groups <- groupBySport items (Some normalize);
  Ok (length <$> groups).

(** The items of a list that carry a tag and fall under the key [k], in
    order; a list as the value of a property, absent when empty; the sum of
    the counts. *)
Definition grouped {T : Type} `{SportFilterable T} (normalize : bool)
    (k : string) (items : list T) : list T :=
  List.filter
    (fun item => JsString.truthy (sport item) &&
                 String.eqb (group_key normalize item) k)
    items.

Definition nonempty {A : Type} (l : list A) : option (list A) :=
  match l with [] => None | _ => Some l end.

Definition total_count (counts : gmap string nat) : nat :=
  map_fold (fun _ n acc => (n + acc)%nat) 0%nat counts.

(** ** The remaining utilities of unifiedSports *)

(** The comparator of [getActiveSports]. *)
Definition active_comparator (engine : Engine) (a b : SportConfig) : option Z :=
  if String.eqb (id a) UNIFIED_SPORTS.ALL then Some (-1)
  else if String.eqb (id b) UNIFIED_SPORTS.ALL then Some 1
  else Some (localeCompare engine (displayName a) (displayName b)).

Definition getActiveSports (engine : Engine) (includeAll : bool) : list SportConfig :=
  let sports :=
    List.filter
      (fun s => isActive s &&
                (includeAll || negb (String.eqb (id s) UNIFIED_SPORTS.ALL)))
      (map snd SPORT_CONFIGS) in
  array_sort engine (active_comparator engine) sports.

Definition seasonMap : list (string * list Z) :=
  [ ("NBA", [9; 10; 11; 0; 1; 2; 3; 4; 5]);
    ("WNBA", [4; 5; 6; 7; 8; 9]);
    ("NFL", [8; 9; 10; 11; 0; 1]);
    ("MLB", [2; 3; 4; 5; 6; 7; 8; 9]);
    ("NHL", [9; 10; 11; 0; 1; 2; 3; 4; 5]);
    ("Soccer", [7; 8; 9; 10; 11; 0; 1; 2; 3; 4]);
    ("PGA", [0; 1; 2; 3; 4; 5; 6; 7; 8; 9; 10]);
    ("Tennis", [0; 1; 2; 3; 4; 5; 6; 7; 8; 9; 10]);
    ("College Football", [7; 8; 9; 10; 11; 0]);
    ("College Basketball", [10; 11; 0; 1; 2; 3]) ].

(** [isInSeason], for the reading [month] of [new Date().getMonth()].  An
    inherited value has no [season], and none has an [includes]. *)
Definition isInSeason (month : Z) (sportId : string) : JsResult bool :=
  match getSportConfig sportId with
  | Undefined => Ok true
  | Inherited _ =>
      Throw (TypeError "Cannot read properties of undefined (reading 'isYearRound')")
  | Own config =>
      if isYearRound (season config) then Ok true
      else
        match get seasonMap (displayName config) with
        | Own sportMonths => Ok (existsb (Z.eqb month) sportMonths)
        | Inherited _ => Throw (TypeError "sportMonths.includes is not a function")
        | Undefined => Ok true
        end
  end.

(** ** The sport filter hook (useUnifiedSportFilter) *)

(** [availableSports.some((s) => s.id === x)] *)
Definition some_id (availableSports : list SportConfig) (x : string) : bool :=
  existsb (fun s => String.eqb (id s) x) availableSports.

(** The sport [setSport] selects, and hands to [onSportChange]. *)
Definition setSport (availableSports : list SportConfig) (sport : string) : string :=
  let normalizedSport := normalizeSportFilter sport in
  let isValid := some_id availableSports normalizedSport in
  if negb isValid && negb (String.eqb normalizedSport UNIFIED_SPORTS.ALL)
  then UNIFIED_SPORTS.ALL
  else normalizedSport.

Definition resetToAll (availableSports : list SportConfig) : string :=
  setSport availableSports UNIFIED_SPORTS.ALL.

(** * Properties *)

(** ** The normalizer *)

Lemma mem_true_iff (k : string) (l : list string) : mem k l = true <-> In k l.
Proof.
  unfold mem. rewrite existsb_exists. split.
  - intros [x [Hin Heq]]. apply String.eqb_eq in Heq. now subst.
  - intros Hin. exists k. split; [assumption | apply String.eqb_refl].
Qed.

Lemma own_property_key {A : Type} (o : list (string * A)) (k : string) (a : A) :
  own_property o k = Some a -> In k (map fst o).
Proof.
  induction o as [|[k' a'] o IH]; simpl; [discriminate|].
  destruct (String.eqb k' k) eqn:E.
  - intros _. left. now apply String.eqb_eq.
  - intros Hk. right. now apply IH.
Qed.

(** Lower-casing a lower-cased, hyphenated character changes nothing. *)
Lemma lower_hyphenate_lower_char (c : ascii) :
  JsString.lower_char (hyphenate_char (JsString.lower_char c)) =
  hyphenate_char (JsString.lower_char c).
Proof. destruct c as [[] [] [] [] [] [] [] []]; reflexivity. Qed.

Lemma toLowerCase_normalized (x : string) :
  JsString.toLowerCase (hyphenate (JsString.toLowerCase x)) =
  hyphenate (JsString.toLowerCase x).
Proof.
  induction x as [|c x IH]; simpl; [reflexivity|].
  unfold JsString.toLowerCase, hyphenate in *. simpl.
  now rewrite lower_hyphenate_lower_char, IH.
Qed.

Lemma plain_hyphenate_lower_char (c : ascii) :
  JsString.plain_char (hyphenate_char (JsString.lower_char c)) = true.
Proof. destruct c as [[] [] [] [] [] [] [] []]; reflexivity. Qed.

Lemma normalized_plain (x : string) :
  JsString.all_chars JsString.plain_char (hyphenate (JsString.toLowerCase x)) = true.
Proof.
  induction x as [|c x IH]; simpl; [reflexivity|].
  rewrite plain_hyphenate_lower_char. exact IH.
Qed.

(** The only inherited property name a normalized string can spell. *)
Lemma inherited_plain (k : string) :
  In k Object_prototype_keys -> JsString.all_chars JsString.plain_char k = true -> k = "constructor".
Proof.
  unfold Object_prototype_keys. simpl.
  intros H Hp.
  repeat (destruct H as [H|H]; [subst k; first [reflexivity | discriminate Hp]|]).
  contradiction.
Qed.

(** What [normalizeSportId] answers: the wildcard, a registered id, or the
    inherited name. *)
Lemma normalizeSportId_cases (x : string) :
  is_registered (normalizeSportId x) = true \/ normalizeSportId x = "constructor".
Proof.
  unfold normalizeSportId, isValidSport, getSportConfig.
  rewrite toLowerCase_normalized.
  set (n := hyphenate (JsString.toLowerCase x)).
  unfold get. destruct (own_property SPORT_CONFIGS n) as [cfg|] eqn:Hown.
  - left. apply mem_true_iff. eapply own_property_key. exact Hown.
  - destruct (mem n Object_prototype_keys) eqn:Hm.
    + right. apply inherited_plain.
      * now apply mem_true_iff.
      * apply normalized_plain.
    + left. reflexivity.
Qed.

Lemma normalizeSportFilter_cases (x : string) :
  is_registered (normalizeSportFilter x) = true \/
  normalizeSportFilter x = "constructor".
Proof.
  unfold normalizeSportFilter.
  destruct (negb (JsString.truthy x) || String.eqb x "all").
  - left. reflexivity.
  - apply normalizeSportId_cases.
Qed.

Lemma normalizeSportId_shape (x : string) :
  normalizeSportId x = UNIFIED_SPORTS.ALL \/
  normalizeSportId x = hyphenate (JsString.toLowerCase x).
Proof.
  unfold normalizeSportId.
  destruct (isValidSport _); [right | left]; reflexivity.
Qed.

(** C3, as stated, fails: the normalizer sends the alias inputs "basketball"
    and "ufc" to the wildcard, not to "nba" and "mma". *)
Lemma normalizeSportFilter_alias_counterexample :
  normalizeSportFilter "basketball" = "all" /\
  normalizeSportFilter "ufc" = "all" /\
  normalizeSportFilter "basketball" <> "nba" /\
  normalizeSportFilter "ufc" <> "mma".
Proof. repeat split; try reflexivity; intros H; discriminate H. Qed.

(** C3, amended: the sport normalizer consults no alias table, only the
    registry.  Its result is always the wildcard or the lower-cased,
    hyphenated input itself, so the alias inputs "basketball" and "ufc" yield
    the wildcard "all", although the filter's own table maps them to "nba"
    and "mma"; a case variant of a registered id, such as "NBA", does reach
    its canonical id. *)
Theorem normalizeSportFilter_no_alias_table :
  (forall x : string,
     normalizeSportFilter x = UNIFIED_SPORTS.ALL \/
     normalizeSportFilter x = hyphenate (JsString.toLowerCase x)) /\
  normalizeSportFilter "basketball" = UNIFIED_SPORTS.ALL /\
  normalizeSportFilter "ufc" = UNIFIED_SPORTS.ALL /\
  own_property COMMON_SPORT_MAPPINGS "basketball" = Some UNIFIED_SPORTS.NBA /\
  own_property COMMON_SPORT_MAPPINGS "ufc" = Some UNIFIED_SPORTS.MMA /\
  normalizeSportFilter "NBA" = UNIFIED_SPORTS.NBA.
Proof.
  split; [|repeat split; reflexivity].
  intros x. unfold normalizeSportFilter.
  destruct (negb (JsString.truthy x) || String.eqb x "all").
  - left. reflexivity.
  - apply normalizeSportId_shape.
Qed.

(** C5: on the input "constructor" the normalizer returns "constructor",
    which the sport config table does not register: the table is read with
    [SPORT_CONFIGS[id]], and that read also finds the property every object
    inherits under this name. *)
Theorem normalizeSportFilter_constructor :
  normalizeSportFilter "constructor" = "constructor" /\
  is_registered "constructor" = false /\
  isValidSport "constructor" = true.
Proof. repeat split; reflexivity. Qed.

(** ** The filter *)

Lemma registered_cases (s : string) :
  is_registered s = true -> In s registry_ids.
Proof. apply mem_true_iff. Qed.



Lemma array_filter_total {T : Type} (f : T -> JsResult bool) (g : T -> bool)
    (items : list T) :
  Forall (fun item => f item = Ok (g item)) items ->
  array_filter f items = Ok (List.filter g items).
Proof.
  induction 1 as [|item rest Hitem _ IH]; simpl; [reflexivity|].
  rewrite Hitem. simpl. rewrite IH. simpl.
  destruct (g item); reflexivity.
Qed.




(** C8: wildcard identity.  For every collection C of items and default
    options, filterSportData(C, "all") returns C itself, same elements in the
    same order, and so does filterSportData with the empty string as target. *)
Theorem filterSportData_wildcard_identity
    {T : Type} `{SportFilterable T} (C : list T) :
  filterSportData C "all" default_options = Ok C /\
  filterSportData C EmptyString default_options = Ok C.
Proof. split; reflexivity. Qed.

(** The bypass does not depend on the options of [filterSportData]. *)
Lemma filterSportData_wildcard_any_options
    {T : Type} `{SportFilterable T} (C : list T) (o : FilterSportDataOptions) :
  filterSportData C "all" o = Ok C /\ filterSportData C EmptyString o = Ok C.
Proof. split; reflexivity. Qed.

(** ** The unique sports *)

Lemma mem_set_add (x s : string) (members : list string) :
  In x (set_add s members) <-> x = s \/ In x members.
Proof.
  unfold set_add. destruct (mem s members) eqn:E.
  - apply mem_true_iff in E. split; [now right|].
    intros [->|Hin]; assumption.
  - rewrite in_app_iff. simpl. split.
    + intros [Hin|[<-|[]]]; [now right | now left].
    + intros [->|Hin]; [right; now left | now left].
Qed.

Section UniqueSports.

Context {T : Type} `{SportFilterable T}.

Lemma collect_step_mem (normalize : bool) (items : list T) (acc : list string)
    (x : string) :
  In x (fold_left
          (fun sportsSet item =>
             if JsString.truthy (sport item)
             then set_add (if normalize then normalizeSportId (sport item)
                          else sport item) sportsSet
             else sportsSet)
          items acc) <->
  In x acc \/
  exists item, In item items /\ JsString.truthy (sport item) = true /\
               (if normalize then normalizeSportId (sport item) else sport item) = x.
Proof.
  revert acc. induction items as [|item items IH]; intros acc; simpl.
  - split; [now left|]. intros [Hin|[item [[] _]]]. exact Hin.
  - rewrite IH. destruct (JsString.truthy (sport item)) eqn:Ht.
    + rewrite mem_set_add. split.
      * intros [[->|Hin]|[it [Hin [Hit Hx]]]].
        -- right. exists item. auto.
        -- now left.
        -- right. exists it. auto.
      * intros [Hin|[it [[->|Hin] [Hit Hx]]]].
        -- left. now right.
        -- left. left. now symmetry.
        -- right. exists it. auto.
    + split.
      * intros [Hin|[it [Hin [Hit Hx]]]]; [now left|].
        right. exists it. auto.
      * intros [Hin|[it [[->|Hin] [Hit Hx]]]]; [now left| congruence |].
        right. exists it. auto.
Qed.

Lemma collect_sports_mem (normalize : bool) (items : list T) (x : string) :
  In x (collect_sports normalize items) <->
  exists item, In item items /\ JsString.truthy (sport item) = true /\
               (if normalize then normalizeSportId (sport item) else sport item) = x.
Proof.
  unfold collect_sports.
  rewrite (collect_step_mem normalize items [] x). simpl. tauto.
Qed.

Lemma count_occ_In_pos (l : list string) (x : string) :
  In x l -> (1 <= count_occ string_dec l x)%nat.
Proof. intros Hin. apply (count_occ_In string_dec) in Hin. lia. Qed.

End UniqueSports.

(** C10, as stated, fails: the empty tag normalizes to "all", but an item
    carrying it is skipped, and the result holds the wildcard once. *)
Lemma extractUniqueSports_empty_tag_counterexample :
  normalizeSportId EmptyString = "all" /\
  normalizeSportFilter EmptyString = "all" /\
  extractUniqueSports Reference.engine [EmptyString] extract_defaults = ["all"] /\
  count_occ string_dec
    (extractUniqueSports Reference.engine [EmptyString] extract_defaults) "all" = 1%nat.
Proof. repeat split; reflexivity. Qed.

(** C10, amended: extractUniqueSports with default options does not
    deduplicate the wildcard.  For every input list in which some item's
    non-empty sport tag normalizes to "all", the returned list contains the
    id "all" at least twice, once from the normalized set and once from the
    unconditional wildcard prepend.  (An item with an empty tag is skipped.) *)
Theorem extractUniqueSports_wildcard_twice
    (engine : Engine) {T : Type} `{SportFilterable T} (items : list T) :
  sort_rearranges engine ->
  (exists item, In item items /\ JsString.truthy (sport item) = true /\
                normalizeSportId (sport item) = UNIFIED_SPORTS.ALL) ->
  (2 <= count_occ string_dec
          (extractUniqueSports engine items extract_defaults)
          UNIFIED_SPORTS.ALL)%nat.
Proof.
  intros Hsort Hitem.
  unfold extractUniqueSports. simpl.
  rewrite (proj1 (Permutation_count_occ string_dec _ _) (Hsort _ _ _)).
  assert (Hc : (1 <= count_occ string_dec (collect_sports true items)
                       UNIFIED_SPORTS.ALL)%nat).
  { apply count_occ_In_pos. apply collect_sports_mem. exact Hitem. }
  cbn [count_occ].
  destruct (string_dec UNIFIED_SPORTS.ALL UNIFIED_SPORTS.ALL); [lia | congruence].
Qed.

Lemma insert_permutation {A : Type} (cmp : A -> A -> option Z) (x : A) (l : list A) :
  Permutation (Reference.insert cmp x l) (x :: l).
Proof.
  induction l as [|y l IH]; simpl; [reflexivity|].
  destruct (or_default (cmp x y) 0 <=? 0); [reflexivity|].
  rewrite IH. apply perm_swap.
Qed.

Lemma reference_sort_rearranges : sort_rearranges Reference.engine.
Proof.
  intros A cmp l. simpl. unfold Reference.sort.
  induction l as [|x l IH]; simpl; [reflexivity|].
  rewrite insert_permutation. now apply perm_skip.
Qed.

Lemma extractUniqueSports_wildcard_twice_witness :
  (2 <= count_occ string_dec
          (extractUniqueSports Reference.engine ["xyz"; "nba"] extract_defaults)
          UNIFIED_SPORTS.ALL)%nat.
Proof.
  apply (extractUniqueSports_wildcard_twice Reference.engine ["xyz"; "nba"]).
  - exact reference_sort_rearranges.
  - exists "xyz". repeat split. simpl. now left.
Defined.

(** ** The cache *)

Lemma isValidCacheEntry_spec (now : Z) (e : CacheEntry) :
  isValidCacheEntry now e = true <-> now < entry_timestamp e + entry_ttl e.
Proof. unfold isValidCacheEntry. rewrite Z.ltb_lt. lia. Qed.

Lemma getFromCache_absent (now : Z) (key : string) (cache : Cache) :
  cache !! key = None -> getFromCache now key cache = (None, cache).
Proof. intros H. unfold getFromCache. now rewrite H. Qed.

Lemma getFromCache_valid (now : Z) (key : string) (cache : Cache) (e : CacheEntry) :
  cache !! key = Some e -> isValidCacheEntry now e = true ->
  getFromCache now key cache = (Some (entry_data e), cache).
Proof. intros H Hv. unfold getFromCache. now rewrite H, Hv. Qed.

Lemma getFromCache_invalid (now : Z) (key : string) (cache : Cache) (e : CacheEntry) :
  cache !! key = Some e -> isValidCacheEntry now e = false ->
  getFromCache now key cache = (None, delete key cache).
Proof. intros H Hv. unfold getFromCache. now rewrite H, Hv. Qed.

(** A lookup without a hit leaves no entry under the key, and touches no
    other key. *)
Lemma getFromCache_miss (now : Z) (key : string) (cache : Cache) :
  fst (getFromCache now key cache) = None ->
  snd (getFromCache now key cache) = delete key cache /\
  snd (getFromCache now key cache) !! key = None.
Proof.
  unfold getFromCache. destruct (cache !! key) as [e|] eqn:He.
  - destruct (isValidCacheEntry now e); simpl; [discriminate|].
    intros _. split; [reflexivity | apply lookup_delete_eq].
  - simpl. intros _. split; [|exact He].
    symmetry. now apply delete_id.
Qed.

(** C7: a cache entry written at time T with time-to-live ttl is a hit when
    read at any time strictly before T+ttl (so at T+ttl-1) and a miss at any
    time at or after T+ttl (so at T+ttl+1); an entry found invalid at read
    time is deleted from the cache during that lookup. *)
Theorem cache_ttl_expiry (cache : Cache) (key : string) (d : Payload) (T ttl t : Z) :
  (t < T + ttl ->
   getFromCache t key (setCache T key d ttl cache) =
     (Some d, setCache T key d ttl cache)) /\
  (T + ttl <= t ->
   getFromCache t key (setCache T key d ttl cache) =
     (None, delete key (setCache T key d ttl cache))) /\
  getFromCache (T + ttl - 1) key (setCache T key d ttl cache) =
    (Some d, setCache T key d ttl cache) /\
  getFromCache (T + ttl + 1) key (setCache T key d ttl cache) =
    (None, delete key (setCache T key d ttl cache)) /\
  (forall (e : CacheEntry) (now : Z),
     cache !! key = Some e -> isValidCacheEntry now e = false ->
     getFromCache now key cache = (None, delete key cache) /\
     delete key cache !! key = None).
Proof.
  assert (Hhit : forall t', t' < T + ttl ->
            getFromCache t' key (setCache T key d ttl cache) =
              (Some d, setCache T key d ttl cache)).
  { intros t' Ht. unfold getFromCache, setCache.
    rewrite lookup_insert_eq.
    replace (isValidCacheEntry t' _) with true; [reflexivity|].
    symmetry. apply isValidCacheEntry_spec. simpl. lia. }
  assert (Hmiss : forall t', T + ttl <= t' ->
            getFromCache t' key (setCache T key d ttl cache) =
              (None, delete key (setCache T key d ttl cache))).
  { intros t' Ht. unfold getFromCache, setCache.
    rewrite lookup_insert_eq.
    replace (isValidCacheEntry t' _) with false; [reflexivity|].
    symmetry. apply not_true_is_false. rewrite isValidCacheEntry_spec. simpl. lia. }
  split; [apply Hhit|].
  split; [apply Hmiss|].
  split; [apply Hhit; lia|].
  split; [apply Hmiss; lia|].
  intros e now He Hv. split.
  - now apply getFromCache_invalid with (e := e).
  - apply lookup_delete_eq.
Qed.

Lemma cache_ttl_expiry_witness :
  getFromCache 120999 "available-sports"
    (setCache 1000 "available-sports" (PSports ["all"]) 120000 ∅) =
    (Some (PSports ["all"]),
     setCache 1000 "available-sports" (PSports ["all"]) 120000 ∅) /\
  getFromCache 121000 "available-sports"
    (setCache 1000 "available-sports" (PSports ["all"]) 120000 ∅) =
    (None,
     delete "available-sports"
       (setCache 1000 "available-sports" (PSports ["all"]) 120000 ∅)).
Proof.
  split.
  - apply (proj1 (cache_ttl_expiry ∅ "available-sports" (PSports ["all"])
                    1000 120000 120999)).
    lia.
  - apply (proj1 (proj2 (cache_ttl_expiry ∅ "available-sports" (PSports ["all"])
                           1000 120000 121000))).
    lia.
Defined.

(** ** The facade *)

Section FacadeProperties.

Variable engine : Engine.
Variable JSON_stringify : UnifiedDataFilters -> string.
Variable api : Api.

Lemma checked_failed {Raw B : Type} (r : JsResult (ApiResponse Raw))
    (msg : string) (k : list Raw -> JsResult B) :
  failed_response r ->
  (try! response <- r; try! raw <- checked response msg; k raw) =
  Throw (rejection r msg).
Proof.
  destruct r as [resp|e]; simpl; [|reflexivity].
  intros H. unfold checked. now rewrite H.
Qed.

Lemma fetch_opportunities_fails (f : UnifiedDataFilters) (t0 t1 : Z) :
  always_fails api ->
  fetch_opportunities engine api f t0 t1 =
  Throw (rejection (api_getBettingOpportunities api t0 (betting_request f))
                   "Failed to fetch betting opportunities").
Proof. intros [Hb _]. unfold fetch_opportunities. now apply checked_failed. Qed.

Lemma fetch_props_fails (f : UnifiedDataFilters) (t0 t1 : Z) :
  always_fails api ->
  fetch_props engine api f t0 t1 =
  Throw (rejection (api_getPrizePicksProps api t0 (props_request f))
                   "Failed to fetch player props").
Proof. intros [_ Hp]. unfold fetch_props. now apply checked_failed. Qed.

(** The keys of the two fetching methods differ from each other and from the
    key of [getAvailableSports], whatever the filter object prints as. *)
Lemma betting_key_not_sports (f : UnifiedDataFilters) :
  getCacheKey JSON_stringify "betting-opportunities" f <> "available-sports".
Proof. unfold getCacheKey. simpl. discriminate. Qed.

Lemma props_key_not_sports (f : UnifiedDataFilters) :
  getCacheKey JSON_stringify "player-props" f <> "available-sports".
Proof. unfold getCacheKey. simpl. discriminate. Qed.

(** Two filter objects share a key exactly when they print the same. *)
Lemma append_inj (p a b : string) : p +:+ a = p +:+ b -> a = b.
Proof. induction p as [|c p IH]; simpl; [auto|]. intros [= H]. auto. Qed.

Lemma getCacheKey_differs (endpoint : string) (f g : UnifiedDataFilters) :
  JSON_stringify g <> JSON_stringify f ->
  getCacheKey JSON_stringify endpoint f <> getCacheKey JSON_stringify endpoint g.
Proof.
  intros Hne Heq. unfold getCacheKey in Heq.
  apply append_inj, append_inj in Heq. now apply Hne.
Qed.

Lemma betting_key_not_props (f g : UnifiedDataFilters) :
  getCacheKey JSON_stringify "betting-opportunities" f <>
  getCacheKey JSON_stringify "player-props" g.
Proof. unfold getCacheKey. simpl. discriminate. Qed.

(** *** The error branch stores nothing *)

Lemma caught_reported {A : Type} (e : JsError) (now : Z) :
  nullish e = false -> @caught A e now = Fresh (failure e now).
Proof. destruct e; simpl; try discriminate; reflexivity. Qed.

Lemma caught_rejected {A : Type} (e exception : JsError) (now : Z) :
  @caught A e now = Rejected exception -> nullish e = true.
Proof. destruct e; simpl; try discriminate; reflexivity. Qed.

Lemma caught_not_cached {A : Type} (e : JsError) (now : Z) (p : Payload) :
  @caught A e now <> FromCache p.
Proof. unfold caught. destruct (message e); discriminate. Qed.

Lemma caught_fresh {A : Type} (e : JsError) (now : Z) (r : UnifiedApiResponse A) :
  caught e now = Fresh r -> r = failure e now.
Proof. unfold caught. destruct (message e); [|discriminate]. now intros [= <-]. Qed.

Lemma rejection_reported {Raw : Type} (r : JsResult (ApiResponse Raw)) (msg : string) :
  rejects_nullish r = false -> nullish (rejection r msg) = false.
Proof. destruct r; simpl; auto. Qed.

Lemma getBettingOpportunities_error (f : UnifiedDataFilters) (t0 t1 : Z)
    (cache : Cache) (e : JsError) :
  fst (getFromCache t0 (getCacheKey JSON_stringify "betting-opportunities" f) cache)
    = None ->
  fetch_opportunities engine api f t0 t1 = Throw e ->
  getBettingOpportunities engine JSON_stringify api f t0 t1 cache =
    (caught e t1,
     delete (getCacheKey JSON_stringify "betting-opportunities" f) cache).
Proof.
  intros Hmiss Hfetch. unfold getBettingOpportunities.
  destruct (getFromCache_miss _ _ _ Hmiss) as [Hsnd _].
  destruct (getFromCache t0 _ cache) as [cached cache'] eqn:Hget.
  simpl in Hmiss, Hsnd. subst cached cache'. now rewrite Hfetch.
Qed.


Lemma getBettingOpportunities_not_cached (f : UnifiedDataFilters) (t0 t1 : Z)
    (cache : Cache) :
  cache !! getCacheKey JSON_stringify "betting-opportunities" f = None ->
  forall p, fst (getBettingOpportunities engine JSON_stringify api f t0 t1 cache)
            <> FromCache p.
Proof.
  intros Hnone p. unfold getBettingOpportunities.
  rewrite (getFromCache_absent _ _ _ Hnone).
  destruct (fetch_opportunities engine api f t0 t1); simpl;
    [discriminate | apply caught_not_cached].
Qed.

Lemma getPlayerProps_not_cached (f : UnifiedDataFilters) (t0 t1 : Z)
    (cache : Cache) :
  cache !! getCacheKey JSON_stringify "player-props" f = None ->
  forall p, fst (getPlayerProps engine JSON_stringify api f t0 t1 cache)
            <> FromCache p.
Proof.
  intros Hnone p. unfold getPlayerProps.
  rewrite (getFromCache_absent _ _ _ Hnone).
  destruct (fetch_props engine api f t0 t1); simpl;
    [discriminate | apply caught_not_cached].
Qed.

(** *** A client that is down *)

Lemma wildcard_only_empty : wildcard_only ∅.
Proof. intros k e H. rewrite lookup_empty in H. discriminate. Qed.

Lemma wildcard_only_delete (k : string) (cache : Cache) :
  wildcard_only cache -> wildcard_only (delete k cache).
Proof.
  intros Hc k' e H. apply Hc.
  rewrite lookup_delete in H. destruct (decide (k = k')); [discriminate | exact H].
Qed.

Lemma wildcard_only_store (t ttl : Z) (cache : Cache) :
  wildcard_only cache ->
  wildcard_only (setCache t "available-sports" (PSports [UNIFIED_SPORTS.ALL]) ttl cache).
Proof.
  intros Hc k e H. unfold setCache in H.
  rewrite lookup_insert in H. destruct (decide ("available-sports" = k)) as [<-|].
  - inversion H. now split.
  - now apply Hc.
Qed.

Lemma wildcard_only_absent (k : string) (cache : Cache) :
  wildcard_only cache -> k <> "available-sports" -> cache !! k = None.
Proof.
  intros Hc Hk. destruct (cache !! k) as [e|] eqn:He; [|reflexivity].
  destruct (Hc _ _ He) as [Heq _]. contradiction.
Qed.

Lemma getBettingOpportunities_down (f : UnifiedDataFilters) (t0 t1 : Z)
    (cache : Cache) :
  always_fails api -> wildcard_only cache ->
  getBettingOpportunities engine JSON_stringify api f t0 t1 cache =
    (caught (rejection (api_getBettingOpportunities api t0 (betting_request f))
                       "Failed to fetch betting opportunities") t1,
     cache).
Proof.
  intros Hdown Hc. unfold getBettingOpportunities.
  rewrite getFromCache_absent
    by (apply wildcard_only_absent; [exact Hc | apply betting_key_not_sports]).
  now rewrite fetch_opportunities_fails.
Qed.

Lemma getPlayerProps_down (f : UnifiedDataFilters) (t0 t1 : Z) (cache : Cache) :
  always_fails api -> wildcard_only cache ->
  getPlayerProps engine JSON_stringify api f t0 t1 cache =
    (caught (rejection (api_getPrizePicksProps api t0 (props_request f))
                       "Failed to fetch player props") t1,
     cache).
Proof.
  intros Hdown Hc. unfold getPlayerProps.
  rewrite getFromCache_absent
    by (apply wildcard_only_absent; [exact Hc | apply props_key_not_sports]).
  now rewrite fetch_props_fails.
Qed.

(** With the client down, rejecting with values whose message can be read,
    and nothing valid in the cache, the list is the wildcard alone, and it
    is stored. *)
Lemma getAvailableSports_down_miss (t0 tb tp t2 : Z) (cache : Cache) :
  always_fails api -> never_nullish api -> wildcard_only cache ->
  fst (getFromCache t0 "available-sports" cache) = None ->
  getAvailableSports engine JSON_stringify api t0 tb tp t2 cache =
    (Fresh [UNIFIED_SPORTS.ALL],
     setCache t2 "available-sports" (PSports [UNIFIED_SPORTS.ALL]) (2 * 60 * 1000)
       (delete "available-sports" cache)).
Proof.
  intros Hdown [Hb Hp] Hc Hmiss. unfold getAvailableSports.
  destruct (getFromCache_miss _ _ _ Hmiss) as [Hsnd _].
  destruct (getFromCache t0 "available-sports" cache) as [cached cache'] eqn:Hget.
  simpl in Hmiss, Hsnd. subst cached cache'.
  rewrite getBettingOpportunities_down
    by (try assumption; now apply wildcard_only_delete).
  rewrite getPlayerProps_down
    by (try assumption; now apply wildcard_only_delete).
  rewrite !caught_reported by (apply rejection_reported; auto).
  reflexivity.
Qed.

(** With the client down, whatever it rejects with, the cache holds nothing
    but the wildcard list. *)
Lemma getAvailableSports_down_cache (t0 tb tp t2 : Z) (cache : Cache) :
  always_fails api -> wildcard_only cache ->
  wildcard_only (snd (getAvailableSports engine JSON_stringify api t0 tb tp t2 cache)).
Proof.
  intros Hdown Hc. unfold getAvailableSports.
  pose proof (getFromCache_miss t0 "available-sports" cache) as Hmiss.
  destruct (getFromCache t0 "available-sports" cache) as [[p|] cache'] eqn:Hget.
  - unfold getFromCache in Hget.
    destruct (cache !! "available-sports") as [e|]; [|discriminate].
    destruct (isValidCacheEntry t0 e); [|discriminate].
    inversion Hget; subst. exact Hc.
  - destruct (Hmiss eq_refl) as [Hsnd _]. simpl in Hsnd. subst cache'.
    rewrite getBettingOpportunities_down
      by (try assumption; now apply wildcard_only_delete).
    rewrite getPlayerProps_down
      by (try assumption; now apply wildcard_only_delete).
    unfold caught.
    destruct (message (rejection (api_getBettingOpportunities api t0 _) _));
      destruct (message (rejection (api_getPrizePicksProps api t0 _) _)); simpl;
      try (now apply wildcard_only_delete).
    apply wildcard_only_store. now apply wildcard_only_delete.
Qed.

Lemma getAvailableSports_down (t0 tb tp t2 : Z) (cache : Cache) :
  always_fails api -> never_nullish api -> wildcard_only cache ->
  reply_list (fst (getAvailableSports engine JSON_stringify api t0 tb tp t2 cache))
    = Some [UNIFIED_SPORTS.ALL].
Proof.
  intros Hdown Hvalue Hc.
  destruct (fst (getFromCache t0 "available-sports" cache)) as [p|] eqn:Hget.
  - unfold getAvailableSports. unfold getFromCache in *.
    destruct (cache !! "available-sports") as [e|] eqn:He; [|discriminate].
    destruct (isValidCacheEntry t0 e); [|discriminate].
    simpl in *. inversion Hget; subst p.
    destruct (Hc _ _ He) as [_ ->]. reflexivity.
  - now rewrite getAvailableSports_down_miss.
Qed.

Lemma run_call_down (cache : Cache) (c : Call) :
  always_fails api -> wildcard_only cache ->
  wildcard_only (run_call engine JSON_stringify api cache c).
Proof.
  intros Hdown Hc. destruct c as [f t0 t1|f t0 t1|t0 tb tp t2|]; simpl.
  - now rewrite getBettingOpportunities_down.
  - now rewrite getPlayerProps_down.
  - now apply getAvailableSports_down_cache.
  - apply wildcard_only_empty.
Qed.

Lemma service_after_down (history : list Call) :
  always_fails api ->
  wildcard_only (service_after engine JSON_stringify api history).
Proof.
  intros Hdown. unfold service_after.
  generalize wildcard_only_empty. generalize (∅ : Cache).
  induction history as [|c history IH]; intros cache Hc; simpl; [exact Hc|].
  apply IH. now apply run_call_down.
Qed.

End FacadeProperties.

Lemma reference_down_always_fails : always_fails Reference.down.
Proof. split; intros t q; exact I. Qed.

Lemma reference_down_never_nullish : never_nullish Reference.down.
Proof. split; intros t q; reflexivity. Qed.

Lemma rejecting_always_fails (e : JsError) : always_fails (Reference.rejecting e).
Proof. split; intros t q; exact I. Qed.

(** What holds of the claim C6.  For every upstream client that fails on
    every call and never rejects with [undefined] or [null], and at every
    state the service reaches from its empty cache, getBettingOpportunities
    resolves with a result whose success field is false, whose data is the
    empty list and whose error field is the message read from the caught
    value; this holds for every filter object, the empty one included. *)
Lemma getBettingOpportunities_resolves_on_errors
    (engine : Engine) (JSON_stringify : UnifiedDataFilters -> string) (api : Api)
    (history : list Call) (f : UnifiedDataFilters) (t0 t1 : Z) :
  always_fails api ->
  never_nullish api ->
  fst (getBettingOpportunities engine JSON_stringify api f t0 t1
         (service_after engine JSON_stringify api history)) =
  Fresh {| success := false;
           data := Some [];
           count := Some 0;
           filters := None;
           error :=
             match
               message
                 (rejection
                    (api_getBettingOpportunities api t0 (betting_request f))
                    "Failed to fetch betting opportunities")
             with
             | Ok m => m
             | Throw _ => None
             end;
           timestamp := t1;
           cached := None |}.
Proof.
  intros Hdown [Hb _].
  rewrite getBettingOpportunities_down;
    [| exact Hdown | now apply service_after_down].
  simpl. rewrite caught_reported by (apply rejection_reported; apply Hb).
  reflexivity.
Qed.

Lemma getBettingOpportunities_network_error :
  fst (getBettingOpportunities Reference.engine Reference.stringify Reference.down
         no_filters 5 6
         (service_after Reference.engine Reference.stringify Reference.down
            [CallAvailableSports 1 2 3 4])) =
  Fresh {| success := false; data := Some []; count := Some 0; filters := None;
           error := Some "Network Error"; timestamp := 6; cached := None |}.
Proof.
  exact (getBettingOpportunities_resolves_on_errors Reference.engine
           Reference.stringify Reference.down [CallAvailableSports 1 2 3 4]
           no_filters 5 6 reference_down_always_fails reference_down_never_nullish).
Qed.

(** C6: the facade can reject.  Its catch block builds the result with
    [(error as Error).message]; a promise may reject with any value, and on
    [undefined] or [null] that read throws inside the catch block.  For the
    upstream client that rejects every call with [undefined], and at every
    state the service reaches from its empty cache, getBettingOpportunities
    rejects with a TypeError instead of resolving with a result whose
    success field is false, for every filter object; so it does on a new
    service for the empty filter object, leaving the cache empty; and the
    same holds for the client that rejects with [null]. *)
Theorem getBettingOpportunities_rejects
    (engine : Engine) (JSON_stringify : UnifiedDataFilters -> string)
    (history : list Call) (f : UnifiedDataFilters) (t0 t1 : Z) :
  fst (getBettingOpportunities engine JSON_stringify
         (Reference.rejecting ThrownUndefined) f t0 t1
         (service_after engine JSON_stringify
            (Reference.rejecting ThrownUndefined) history)) =
    Rejected
      (TypeError "Cannot read properties of undefined (reading 'message')") /\
  getBettingOpportunities Reference.engine Reference.stringify
    (Reference.rejecting ThrownUndefined) no_filters 0 1 ∅ =
    (Rejected
       (TypeError "Cannot read properties of undefined (reading 'message')"),
     ∅) /\
  fst (getBettingOpportunities engine JSON_stringify
         (Reference.rejecting ThrownNull) f t0 t1
         (service_after engine JSON_stringify
            (Reference.rejecting ThrownNull) history)) =
    Rejected (TypeError "Cannot read properties of null (reading 'message')").
Proof.
  split; [|split].
  - rewrite getBettingOpportunities_down;
      [reflexivity | apply rejecting_always_fails
       | apply service_after_down, rejecting_always_fails].
  - rewrite getBettingOpportunities_down;
      [reflexivity | apply rejecting_always_fails | apply wildcard_only_empty].
  - rewrite getBettingOpportunities_down;
      [reflexivity | apply rejecting_always_fails
       | apply service_after_down, rejecting_always_fails].
Qed.

(** C1: when both underlying fetches fail, getAvailableSports does not
    return the fallback list.  The two facade methods it awaits resolve with
    an empty data list instead of rejecting, so the catch block holding the
    fallback is not entered: for a client that fails on every call with a
    value other than [undefined] and [null], the reply is the wildcard
    alone, at every state the service reaches, and a new service stores that
    list for two minutes. *)
Theorem getAvailableSports_client_down
    (engine : Engine) (JSON_stringify : UnifiedDataFilters -> string) (api : Api)
    (history : list Call) (t0 tb tp t2 : Z) :
  always_fails api ->
  never_nullish api ->
  reply_list
    (fst (getAvailableSports engine JSON_stringify api t0 tb tp t2
            (service_after engine JSON_stringify api history))) =
    Some [UNIFIED_SPORTS.ALL] /\
  getAvailableSports engine JSON_stringify api t0 tb tp t2 ∅ =
    (Fresh [UNIFIED_SPORTS.ALL],
     setCache t2 "available-sports" (PSports [UNIFIED_SPORTS.ALL]) 120000 ∅) /\
  [UNIFIED_SPORTS.ALL] <> fallback_sports.
Proof.
  intros Hdown Hvalue. split; [|split].
  - apply getAvailableSports_down;
      [exact Hdown | exact Hvalue | now apply service_after_down].
  - rewrite getAvailableSports_down_miss;
      [| exact Hdown | exact Hvalue | apply wildcard_only_empty | reflexivity].
    now rewrite delete_empty.
  - discriminate.
Qed.

Lemma getAvailableSports_client_down_witness :
  fst (getAvailableSports Reference.engine Reference.stringify Reference.down
         1 2 3 4 ∅) = Fresh ["all"].
Proof.
  pose proof (getAvailableSports_client_down Reference.engine Reference.stringify
                Reference.down [] 1 2 3 4 reference_down_always_fails
                reference_down_never_nullish) as [_ [H _]].
  rewrite H. reflexivity.
Defined.

(** The fallback list of getAvailableSports is what a client rejecting with
    [undefined] gets: the two fetching methods reject, [Promise.all] with
    them, and nothing is stored. *)
Lemma getAvailableSports_fallback_on_undefined :
  getAvailableSports Reference.engine Reference.stringify
    (Reference.rejecting ThrownUndefined) 1 2 3 4 ∅ =
  (Fresh fallback_sports, ∅).
Proof. vm_compute. reflexivity. Qed.




(** The confidence of a unified prop is the client's when it is truthy, and
    75 otherwise. *)
Lemma unify_prop_confidence (engine : Engine) (now : Z) (i : nat)
    (prop : PlayerProp.Raw) :
  PlayerProp.confidence (unify_prop engine now i prop) =
  num_or (PlayerProp.raw_confidence prop) 75.
Proof. reflexivity. Qed.

(** C2: a successful fetch whose client delivers a prop of confidence 99
    returns that record with confidence 99, outside [50,95]: the transform
    of getPlayerProps copies the confidence and does not clamp it. *)
Theorem getPlayerProps_confidence_not_clamped :
  exists r p q,
    fst (getPlayerProps Reference.engine Reference.stringify Reference.two_props
           no_filters 0 1 ∅) = Fresh r /\
    success r = true /\
    data r = Some [p; q] /\
    PlayerProp.confidence p = 99 /\
    PlayerProp.confidence q = 80 /\
    ~ (50 <= PlayerProp.confidence p <= 95).
Proof.
  do 3 eexists. split; [vm_compute; reflexivity|].
  repeat split; try reflexivity. simpl. lia.
Qed.

(** * Further properties *)

(** ** The filter: what it keeps, and when it throws *)

Lemma eqb_all_false (s : string) : s <> "all" -> String.eqb s "all" = false.
Proof. intros Hs. now apply String.eqb_neq. Qed.

(** Outside the bypass, [filterBySport] is [Array.prototype.filter] with the
    matching callback. *)
Lemma filterBySport_no_bypass {T : Type} `{SportFilterable T}
    (items : list T) (o : SportFilterOptions) :
  opt_sport o <> "all" -> JsString.truthy (opt_sport o) = true ->
  filterBySport items o =
  array_filter
    (fun item =>
       sport_matches (or_default (caseSensitive o) false)
         (or_default (allowPartialMatch o) true)
         (or_default (mapSportNames o) [])
         (if or_default (caseSensitive o) false then opt_sport o
          else JsString.toLowerCase (opt_sport o))
         (sport item))
    items.
Proof.
  intros Hall Ht. unfold filterBySport.
  unfold UNIFIED_SPORTS.ALL. rewrite (eqb_all_false _ Hall), Ht. simpl.
  now rewrite andb_false_r.
Qed.

Lemma array_filter_sublist {T : Type} (f : T -> JsResult bool)
    (items out : list T) :
  array_filter f items = Ok out -> sublist out items.
Proof.
  revert out. induction items as [|item rest IH]; simpl; intros out Hout.
  - inversion Hout. constructor.
  - destruct (f item) as [keep|e]; simpl in Hout; [|discriminate].
    destruct (array_filter f rest) as [rest'|e]; simpl in Hout; [|discriminate].
    inversion Hout; subst out. specialize (IH rest' eq_refl).
    destruct keep; [now apply sublist_skip | now apply sublist_cons].
Qed.

Lemma array_filter_kept {T : Type} (f : T -> JsResult bool)
    (items out : list T) :
  array_filter f items = Ok out -> Forall (fun item => f item = Ok true) out.
Proof.
  revert out. induction items as [|item rest IH]; simpl; intros out Hout.
  - inversion Hout. constructor.
  - destruct (f item) as [keep|e] eqn:Hf; simpl in Hout; [|discriminate].
    destruct (array_filter f rest) as [rest'|e]; simpl in Hout; [|discriminate].
    inversion Hout; subst out. specialize (IH rest' eq_refl).
    destruct keep; [now constructor | exact IH].
Qed.

Lemma array_filter_all_kept {T : Type} (f : T -> JsResult bool) (items : list T) :
  Forall (fun item => f item = Ok true) items -> array_filter f items = Ok items.
Proof.
  induction 1 as [|item rest Hitem _ IH]; simpl; [reflexivity|].
  now rewrite Hitem, IH.
Qed.

Lemma array_filter_ext {T : Type} (f g : T -> JsResult bool) (items : list T) :
  (forall item, f item = g item) -> array_filter f items = array_filter g items.
Proof.
  intros Hfg. induction items as [|item rest IH]; simpl; [reflexivity|].
  now rewrite Hfg, IH.
Qed.

(** X1: the result of filterBySport, when it returns, is a sublist of its
    input: it holds only items of the input, in their relative order. *)
Theorem filterBySport_sublist {T : Type} `{SportFilterable T}
    (items out : list T) (o : SportFilterOptions) :
  filterBySport items o = Ok out -> sublist out items.
Proof.
  unfold filterBySport.
  destruct (_ && _).
  - intros Hout. inversion Hout. reflexivity.
  - apply array_filter_sublist.
Qed.

Lemma filterBySport_sublist_witness :
  sublist ["NBA"; "basketball"] ["NBA"; "nfl"; "basketball"].
Proof.
  apply (filterBySport_sublist ["NBA"; "nfl"; "basketball"] ["NBA"; "basketball"]
           {| opt_sport := "nba"; includeAll := None; caseSensitive := None;
              allowPartialMatch := None;
              mapSportNames := Some COMMON_SPORT_MAPPINGS |}).
  reflexivity.
Defined.

(** X2: filtering is idempotent: filtering the result of filterBySport again
    with the same options returns it unchanged. *)
Theorem filterBySport_idempotent {T : Type} `{SportFilterable T}
    (items out : list T) (o : SportFilterOptions) :
  filterBySport items o = Ok out -> filterBySport out o = Ok out.
Proof.
  unfold filterBySport.
  destruct (_ && _); [reflexivity|].
  intros Hout. apply array_filter_all_kept.
  eapply array_filter_kept. exact Hout.
Qed.

Lemma filterBySport_idempotent_witness :
  filterSportData ["nba"; "wnba"] "nba" default_options = Ok ["nba"; "wnba"].
Proof.
  apply (filterBySport_idempotent ["nba"; "nfl"; "wnba"] ["nba"; "wnba"]).
  reflexivity.
Defined.

(** X3: the target sport is matched without regard to letter case.  Two
    targets with the same lower-casing, neither of them the literal "all" or
    empty, select the same items, unless caseSensitive is set. *)
Theorem filterSportData_target_case_insensitive {T : Type} `{SportFilterable T}
    (items : list T) (s s' : string) (o : FilterSportDataOptions) :
  JsString.toLowerCase s = JsString.toLowerCase s' ->
  s <> "all" -> s' <> "all" ->
  JsString.truthy s = true -> JsString.truthy s' = true ->
  or_default (fsd_caseSensitive o) false = false ->
  filterSportData items s o = filterSportData items s' o.
Proof.
  intros Hlow Hs Hs' Ht Ht' Hcase. unfold filterSportData.
  rewrite !filterBySport_no_bypass by assumption. simpl.
  rewrite Hcase. now rewrite Hlow.
Qed.

Lemma filterSportData_target_case_insensitive_witness :
  filterSportData ["nba"; "nfl"; "NBA"] "nba" default_options =
  filterSportData ["nba"; "nfl"; "NBA"] "NBA" default_options.
Proof.
  apply filterSportData_target_case_insensitive;
    first [reflexivity | discriminate].
Defined.

Lemma own_property_In {A : Type} (o : list (string * A)) (k : string) (a : A) :
  own_property o k = Some a -> In (k, a) o.
Proof.
  induction o as [|[k' a'] o IH]; simpl; [discriminate|].
  destruct (String.eqb k' k) eqn:E.
  - intros Ha. inversion Ha. apply String.eqb_eq in E. subst. now left.
  - intros Ha. right. now apply IH.
Qed.

(** Neither table of the filter has an own property under an inherited
    name. *)
Lemma inherited_not_mapped (use : bool) (tag : string) :
  mem tag Object_prototype_keys = true ->
  get (if use then COMMON_SPORT_MAPPINGS else []) tag = Inherited tag.
Proof.
  intros Hm. apply mem_true_iff in Hm. unfold Object_prototype_keys in Hm.
  simpl in Hm.
  repeat (destruct Hm as [Hm|Hm]; [subst tag; destruct use; reflexivity|]).
  contradiction.
Qed.

Lemma sport_matches_inherited (apm use : bool) (target tag : string) :
  mem tag Object_prototype_keys = true ->
  sport_matches false apm (if use then COMMON_SPORT_MAPPINGS else []) target tag =
  Throw (TypeError "itemSport.toLowerCase is not a function").
Proof.
  intros Hm. unfold sport_matches, apply_mapping.
  rewrite (inherited_not_mapped use tag Hm).
  apply mem_true_iff in Hm. unfold Object_prototype_keys in Hm. simpl in Hm.
  repeat (destruct Hm as [Hm|Hm]; [subst tag; reflexivity|]).
  contradiction.
Qed.

Lemma sport_matches_plain (apm : bool) (m : list (string * string))
    (target tag : string) :
  mem tag Object_prototype_keys = false ->
  exists b, sport_matches false apm m target tag = Ok b.
Proof.
  intros Hm. unfold sport_matches, apply_mapping, get.
  destruct (negb (JsString.truthy tag)); [now eexists|].
  destruct (own_property m tag) as [v|].
  - destruct (JsString.truthy v); destruct (String.eqb _ _); destruct apm;
      now eexists.
  - rewrite Hm. destruct (String.eqb _ _); destruct apm; now eexists.
Qed.

Lemma array_filter_throws {T : Type} (f : T -> JsResult bool) (e : JsError)
    (items : list T) :
  Forall (fun item => (exists b, f item = Ok b) \/ f item = Throw e) items ->
  Exists (fun item => f item = Throw e) items ->
  array_filter f items = Throw e.
Proof.
  induction 1 as [|item rest Hitem Hrest IH]; intros Hex; [inversion Hex|].
  simpl. destruct Hitem as [[b Hb]|Hthrow].
  - rewrite Hb. simpl. inversion Hex as [? ? Hhere|? ? Hlater]; subst.
    + congruence.
    + now rewrite (IH Hlater).
  - now rewrite Hthrow.
Qed.

Lemma array_filter_returns {T : Type} (f : T -> JsResult bool) (items : list T) :
  Forall (fun item => exists b, f item = Ok b) items ->
  exists out, array_filter f items = Ok out.
Proof.
  induction 1 as [|item rest [b Hb] _ [out IH]]; simpl; [now eexists|].
  rewrite Hb, IH. simpl. now eexists.
Qed.

(** X4: when filterSportData throws.  For a target other than "all" and the
    empty string, and caseSensitive unset, the call throws the TypeError
    "itemSport.toLowerCase is not a function" exactly when some item's tag
    is the name of a property inherited from Object.prototype (such as
    "constructor" or "toString"), and returns a list otherwise. *)
Theorem filterSportData_throws_iff {T : Type} `{SportFilterable T}
    (items : list T) (s : string) (o : FilterSportDataOptions) :
  s <> "all" -> JsString.truthy s = true ->
  or_default (fsd_caseSensitive o) false = false ->
  (Exists (fun item => mem (sport item) Object_prototype_keys = true) items ->
   filterSportData items s o =
     Throw (TypeError "itemSport.toLowerCase is not a function")) /\
  (Forall (fun item => mem (sport item) Object_prototype_keys = false) items ->
   exists out, filterSportData items s o = Ok out).
Proof.
  intros Hs Ht Hcase. unfold filterSportData.
  rewrite filterBySport_no_bypass by assumption. simpl. rewrite Hcase.
  split.
  - intros Hex. apply array_filter_throws.
    + apply List.Forall_forall. intros item _.
      destruct (mem (sport item) Object_prototype_keys) eqn:Hm.
      * right. now apply sport_matches_inherited.
      * left. now apply sport_matches_plain.
    + revert Hex. apply List.Exists_impl. intros item Hm.
      now apply sport_matches_inherited.
  - intros Hall. apply array_filter_returns.
    revert Hall. apply List.Forall_impl. intros item Hm.
    now apply sport_matches_plain.
Qed.

Lemma filterSportData_throws_iff_witness :
  filterSportData ["nba"; "constructor"; "nfl"] "nba" default_options =
    Throw (TypeError "itemSport.toLowerCase is not a function") /\
  exists out, filterSportData ["nba"; "nfl"] "nba" default_options = Ok out.
Proof.
  split.
  - apply (proj1 (filterSportData_throws_iff ["nba"; "constructor"; "nfl"] "nba"
                    default_options ltac:(discriminate) eq_refl eq_refl)).
    apply Exists_cons_tl. apply Exists_cons_hd. reflexivity.
  - apply (proj2 (filterSportData_throws_iff ["nba"; "nfl"] "nba"
                    default_options ltac:(discriminate) eq_refl eq_refl)).
    repeat constructor.
Defined.

Lemma sport_matches_exact (target tag : string) :
  In target ["nfl"; "mlb"; "nhl"; "soccer"; "pga"; "tennis"; "esports"; "mma"] ->
  is_registered tag = true ->
  sport_matches false true COMMON_SPORT_MAPPINGS target tag =
  Ok (String.eqb tag target).
Proof.
  intros Ht Hr. apply registered_cases in Hr. simpl in Ht, Hr.
  repeat (destruct Ht as [Ht|Ht];
          [subst target;
           repeat (destruct Hr as [Hr|Hr]; [subst tag; reflexivity|]);
           contradiction|]).
  contradiction.
Qed.

(** X5: for the targets "nfl", "mlb", "nhl", "soccer", "pga", "tennis",
    "esports" and "mma", and items whose tags are registered ids,
    filterSportData with default options returns exactly the items tagged
    with the target, in order: among the registered ids the partial match
    adds nothing for these eight. *)
Theorem filterSportData_exact_targets {T : Type} `{SportFilterable T}
    (items : list T) (s : string) :
  In s ["nfl"; "mlb"; "nhl"; "soccer"; "pga"; "tennis"; "esports"; "mma"] ->
  Forall (fun item => is_registered (sport item) = true) items ->
  filterSportData items s default_options =
  Ok (List.filter (fun item => String.eqb (sport item) s) items).
Proof.
  intros Hs Hitems. unfold filterSportData.
  rewrite filterBySport_no_bypass.
  - simpl. apply array_filter_total.
    revert Hitems. apply List.Forall_impl. intros item Hr.
    replace (JsString.toLowerCase s) with s.
    + now apply sport_matches_exact.
    + simpl in Hs.
      repeat (destruct Hs as [Hs|Hs]; [subst s; reflexivity|]). contradiction.
  - simpl in *. intros ->.
    repeat (destruct Hs as [Hs|Hs]; [discriminate Hs|]). contradiction.
  - simpl in *.
    repeat (destruct Hs as [Hs|Hs]; [subst s; reflexivity|]). contradiction.
Qed.

Lemma filterSportData_exact_targets_witness :
  filterSportData ["nba"; "mma"; "all"; "mma"] "mma" default_options =
  Ok ["mma"; "mma"].
Proof.
  assert (Hs : In "mma" ["nfl"; "mlb"; "nhl"; "soccer"; "pga"; "tennis";
                         "esports"; "mma"]) by (simpl; tauto).
  assert (Hitems : Forall (fun item : string => is_registered (sport item) = true)
                          ["nba"; "mma"; "all"; "mma"]) by (repeat constructor).
  exact (filterSportData_exact_targets ["nba"; "mma"; "all"; "mma"] "mma"
           Hs Hitems).
Defined.

Lemma sport_matches_college (target tag : string) :
  In target ["college-football"; "college-basketball"] ->
  is_registered tag = true ->
  sport_matches false true COMMON_SPORT_MAPPINGS target tag =
  Ok (String.eqb tag target || String.eqb tag "all").
Proof.
  intros Ht Hr. apply registered_cases in Hr. simpl in Ht, Hr.
  repeat (destruct Ht as [Ht|Ht];
          [subst target;
           repeat (destruct Hr as [Hr|Hr]; [subst tag; reflexivity|]);
           contradiction|]).
  contradiction.
Qed.

(** X6: an item tagged with the wildcard "all" passes the default filter for
    "college-football" and for "college-basketball", because both targets
    contain "all" as a substring.  For items with registered tags the result
    is exactly the items tagged with the target or with "all". *)
Theorem filterSportData_college_targets {T : Type} `{SportFilterable T}
    (items : list T) (s : string) :
  In s ["college-football"; "college-basketball"] ->
  Forall (fun item => is_registered (sport item) = true) items ->
  filterSportData items s default_options =
  Ok (List.filter
        (fun item => String.eqb (sport item) s || String.eqb (sport item) "all")
        items).
Proof.
  intros Hs Hitems. unfold filterSportData.
  rewrite filterBySport_no_bypass.
  - simpl. apply array_filter_total.
    revert Hitems. apply List.Forall_impl. intros item Hr.
    replace (JsString.toLowerCase s) with s.
    + now apply sport_matches_college.
    + simpl in Hs.
      repeat (destruct Hs as [Hs|Hs]; [subst s; reflexivity|]). contradiction.
  - simpl in *. intros ->.
    repeat (destruct Hs as [Hs|Hs]; [discriminate Hs|]). contradiction.
  - simpl in *.
    repeat (destruct Hs as [Hs|Hs]; [subst s; reflexivity|]). contradiction.
Qed.

Lemma filterSportData_college_targets_witness :
  filterSportData ["all"; "nba"; "college-football"] "college-football"
    default_options = Ok ["all"; "college-football"].
Proof.
  assert (Hs : In "college-football" ["college-football"; "college-basketball"])
    by (simpl; tauto).
  assert (Hitems : Forall (fun item : string => is_registered (sport item) = true)
                          ["all"; "nba"; "college-football"])
    by (repeat constructor).
  exact (filterSportData_college_targets ["all"; "nba"; "college-football"]
           "college-football" Hs Hitems).
Defined.

(** X7: every name of COMMON_SPORT_MAPPINGS is accepted for its canonical
    sport: items whose tags the table maps to an id v all pass
    filterSportData for the target v with default options. *)
Theorem filterSportData_accepts_aliases {T : Type} `{SportFilterable T}
    (items : list T) (v : string) :
  Forall (fun item => own_property COMMON_SPORT_MAPPINGS (sport item) = Some v)
         items ->
  filterSportData items v default_options = Ok items.
Proof.
  intros Hitems. destruct items as [|item0 rest].
  { unfold filterSportData, filterBySport. destruct (_ && _); reflexivity. }
  assert (Hv : In v (map snd COMMON_SPORT_MAPPINGS)).
  { inversion Hitems as [|? ? H0 _]; subst.
    apply own_property_In in H0. apply (in_map snd) in H0. exact H0. }
  unfold filterSportData. rewrite filterBySport_no_bypass.
  - apply array_filter_all_kept.
    revert Hitems. apply List.Forall_impl. intros item Hitem.
    apply own_property_In in Hitem. simpl in Hitem.
    repeat (destruct Hitem as [Hitem|Hitem];
            [injection Hitem as Htag Hval; rewrite <- Htag, <- Hval;
             reflexivity|]).
    contradiction.
  - simpl in *. intros ->.
    repeat (destruct Hv as [Hv|Hv]; [discriminate Hv|]). contradiction.
  - simpl in *.
    repeat (destruct Hv as [Hv|Hv]; [subst v; reflexivity|]). contradiction.
Qed.

Lemma filterSportData_accepts_aliases_witness :
  filterSportData ["basketball"; "NBA"] "nba" default_options =
  Ok ["basketball"; "NBA"].
Proof.
  apply (filterSportData_accepts_aliases ["basketball"; "NBA"] "nba").
  repeat constructor.
Defined.

(** X8: filtering an array with the predicate of createSportFilter gives
    what filterBySport gives with the same target and options, including the
    exception when there is one. *)
Theorem createSportFilter_agrees {T : Type} `{SportFilterable T}
    (items : list T) (target : string) (o : SportFilterOptions) :
  array_filter (createSportFilter target o) items =
  filterBySport items (with_sport target o).
Proof.
  unfold createSportFilter, filterBySport.
  destruct (_ && _) eqn:Hbypass.
  - simpl. apply array_filter_all_kept.
    apply List.Forall_forall. intros item _. reflexivity.
  - apply array_filter_ext. intros item. simpl.
    destruct (sport_matches _ _ _ _ _) as [[|]|e]; reflexivity.
Qed.

(** ** Grouping and counting *)

Lemma total_count_fresh (counts : gmap string nat) (k : string) (n : nat) :
  counts !! k = None ->
  total_count (<[k := n]> counts) = (n + total_count counts)%nat.
Proof.
  intros Hk. unfold total_count.
  apply (map_fold_insert_L (fun _ n acc => (n + acc)%nat)); [|exact Hk].
  intros. lia.
Qed.

Lemma total_count_update (counts : gmap string nat) (k : string) (n0 n : nat) :
  counts !! k = Some n0 ->
  (total_count (<[k := n]> counts) + n0 = n + total_count counts)%nat.
Proof.
  intros Hk.
  rewrite <- (insert_delete_eq counts k n).
  rewrite <- (insert_delete_id counts k n0 Hk) at 2.
  rewrite !total_count_fresh by apply lookup_delete_eq. lia.
Qed.

Section Grouping.

Context {T : Type} `{SportFilterable T}.
Variable normalize : bool.

Lemma grouped_snoc (k : string) (items : list T) (x : T) :
  grouped normalize k (items ++ [x]) =
  (grouped normalize k items ++
   if JsString.truthy (sport x) && String.eqb (group_key normalize x) k
   then [x] else [])%list.
Proof.
  unfold grouped. rewrite List.filter_app. simpl.
  now destruct (_ && _).
Qed.

Lemma nonempty_snoc (l : list T) (x : T) : nonempty (l ++ [x]) = Some (l ++ [x])%list.
Proof. destruct l; reflexivity. Qed.

Lemma nonempty_None (l : list T) : nonempty l = None -> l = [].
Proof. destruct l; [reflexivity | discriminate]. Qed.

Lemma nonempty_Some (l l' : list T) : nonempty l = Some l' -> l = l' /\ l <> [].
Proof. destruct l; [discriminate|]. intros Hl. now inversion Hl. Qed.

Lemma grouped_member (k : string) (items : list T) :
  grouped normalize k items <> [] ->
  exists item, In item items /\ JsString.truthy (sport item) = true /\
               group_key normalize item = k.
Proof.
  intros Hne. destruct (grouped normalize k items) as [|item l] eqn:Hg;
    [contradiction|].
  assert (Hin : In item (grouped normalize k items)) by (rewrite Hg; now left).
  unfold grouped in Hin. apply List.filter_In in Hin as [Hin Hp].
  apply andb_true_iff in Hp as [Ht Hk]. apply String.eqb_eq in Hk.
  exists item. auto.
Qed.

Lemma group_fold_throw (e : JsError) (items : list T) :
  fold_left (fun acc item => try! groups <- acc; group_item normalize groups item)
            items (Throw e) = Throw e.
Proof. induction items as [|item items IH]; simpl; [reflexivity | exact IH]. Qed.

(** The loop of [groupBySport], item by item. *)
Lemma groupBySport_loop (items : list T) :
  (Forall (fun item => JsString.truthy (sport item) = true ->
                       mem (group_key normalize item) Object_prototype_keys = false)
          items /\
   exists groups,
     groupBySport items (Some normalize) = Ok groups /\
     (forall k, groups !! k = nonempty (grouped normalize k items)) /\
     total_count (length <$> groups) =
       length (List.filter (fun item => JsString.truthy (sport item)) items)) \/
  (Exists (fun item => JsString.truthy (sport item) = true /\
                       mem (group_key normalize item) Object_prototype_keys = true)
          items /\
   groupBySport items (Some normalize) =
     Throw (TypeError "groups[sport].push is not a function")).
Proof.
  unfold groupBySport. simpl.
  induction items as [|x items IH] using rev_ind.
  - left. split; [constructor|]. exists ∅.
    split; [reflexivity|]. split; [intros k; now rewrite lookup_empty|].
    now rewrite fmap_empty.
  - rewrite fold_left_app. simpl.
    destruct IH as [[Hall [groups [Hfold [Hlook Htotal]]]]|[Hex Hfold]].
    2:{ right. split.
        - apply List.Exists_app. now left.
        - now rewrite Hfold. }
    rewrite Hfold. cbn [js_bind]. unfold group_item.
    destruct (JsString.truthy (sport x)) eqn:Ht; cbn [negb].
    2:{ left. split.
        - apply List.Forall_app. split; [exact Hall|].
          constructor; [congruence | constructor].
        - exists groups. split; [reflexivity|]. split.
          + intros k. rewrite grouped_snoc, Ht. simpl.
            rewrite app_nil_r. apply Hlook.
          + rewrite List.filter_app. simpl. rewrite Ht.
            now rewrite app_nil_r. }
    set (key := group_key normalize x).
    assert (Hother : forall k, k <> key ->
              grouped normalize k (items ++ [x]) = grouped normalize k items).
    { intros k Hk. rewrite grouped_snoc, Ht. simpl. fold key.
      replace (String.eqb key k) with false
        by (symmetry; apply String.eqb_neq; congruence).
      apply app_nil_r. }
    assert (Hsame : grouped normalize key (items ++ [x]) =
                    (grouped normalize key items ++ [x])%list).
    { rewrite grouped_snoc, Ht. simpl. fold key. now rewrite String.eqb_refl. }
    assert (Hlen : length (List.filter (fun item => JsString.truthy (sport item))
                             (items ++ [x])) =
                   S (length (List.filter (fun item => JsString.truthy (sport item))
                                items))).
    { rewrite List.filter_app. simpl. rewrite Ht.
      rewrite length_app. simpl. lia. }
    destruct (groups !! key) as [group|] eqn:Hkey.
    + assert (Hgroup : grouped normalize key items = group /\
                       grouped normalize key items <> []).
      { apply nonempty_Some. now rewrite <- Hlook. }
      destruct Hgroup as [Hgroup Hne].
      destruct (grouped_member key items Hne) as [y [Hy [Hty Hky]]].
      assert (Hplain : mem key Object_prototype_keys = false).
      { rewrite <- Hky. rewrite List.Forall_forall in Hall. now apply Hall. }
      left. split.
      * apply List.Forall_app. split; [exact Hall|].
        constructor; [intros _; exact Hplain | constructor].
      * exists (<[key := (group ++ [x])%list]> groups).
        split; [reflexivity|]. split.
        -- intros k. rewrite lookup_insert. destruct (decide (key = k)) as [<-|Hk].
           ++ rewrite Hsame, Hgroup. symmetry. apply nonempty_snoc.
           ++ rewrite Hother by congruence. apply Hlook.
        -- rewrite fmap_insert, Hlen.
           pose proof (total_count_update (length <$> groups) key (length group)
                         (length (group ++ [x])%list)) as Hupd.
           rewrite lookup_fmap, Hkey in Hupd. specialize (Hupd eq_refl).
           rewrite length_app in *. simpl in *. lia.
    + assert (Hnone : grouped normalize key items = []).
      { apply nonempty_None. now rewrite <- Hlook. }
      destruct (mem key Object_prototype_keys) eqn:Hm.
      * right. split; [|reflexivity].
        apply List.Exists_app. right. constructor. now split.
      * left. split.
        -- apply List.Forall_app. split; [exact Hall|].
           constructor; [intros _; exact Hm | constructor].
        -- exists (<[key := [x]]> groups). split; [reflexivity|]. split.
           ++ intros k. rewrite lookup_insert.
              destruct (decide (key = k)) as [<-|Hk].
              ** now rewrite Hsame, Hnone.
              ** rewrite Hother by congruence. apply Hlook.
           ++ rewrite fmap_insert, Hlen.
              rewrite total_count_fresh by (now rewrite lookup_fmap, Hkey).
              simpl. lia.
Qed.

End Grouping.

Lemma groupBySport_default {T : Type} `{SportFilterable T}
    (items : list T) (normalize : option bool) :
  groupBySport items normalize = groupBySport items (Some (or_default normalize true)).
Proof. reflexivity. Qed.

(** X9: when groupBySport returns, the group under a key holds exactly the
    items that carry a non-empty tag falling under that key, in their
    original order, and a key under which no item falls is absent. *)
Theorem groupBySport_groups {T : Type} `{SportFilterable T}
    (items : list T) (normalize : option bool) (groups : gmap string (list T)) :
  groupBySport items normalize = Ok groups ->
  forall k, groups !! k = nonempty (grouped (or_default normalize true) k items).
Proof.
  rewrite groupBySport_default. intros Hg.
  destruct (groupBySport_loop (or_default normalize true) items)
    as [[_ [groups' [Hfold [Hlook _]]]]|[_ Hthrow]].
  - rewrite Hfold in Hg. inversion Hg; subst. exact Hlook.
  - rewrite Hthrow in Hg. discriminate.
Qed.

Lemma groupBySport_groups_witness :
  exists groups,
    groupBySport ["NBA"; "nfl"; "nba"; EmptyString] None = Ok groups /\
    groups !! "nba" = Some ["NBA"; "nba"] /\
    groups !! "mlb" = None.
Proof.
  destruct (groupBySport ["NBA"; "nfl"; "nba"; EmptyString] None)
    as [groups|e] eqn:Hg; [|vm_compute in Hg; discriminate Hg].
  exists groups. split; [reflexivity|].
  split; rewrite (groupBySport_groups _ _ _ Hg); reflexivity.
Defined.

(** X10: when groupBySport throws.  The call throws the TypeError
    "groups[sport].push is not a function" exactly when some item with a
    non-empty tag falls under a key that names a property inherited from
    Object.prototype; with normalization on, this is an item whose tag
    normalizes to "constructor".  Otherwise it returns the groups. *)
Theorem groupBySport_throws_iff {T : Type} `{SportFilterable T}
    (items : list T) (normalize : option bool) :
  (Exists (fun item =>
             JsString.truthy (sport item) = true /\
             mem (group_key (or_default normalize true) item)
                 Object_prototype_keys = true) items ->
   groupBySport items normalize =
     Throw (TypeError "groups[sport].push is not a function")) /\
  (Forall (fun item =>
             JsString.truthy (sport item) = true ->
             mem (group_key (or_default normalize true) item)
                 Object_prototype_keys = false) items ->
   exists groups, groupBySport items normalize = Ok groups) /\
  (forall item,
     mem (group_key true item) Object_prototype_keys = true ->
     normalizeSportId (sport item) = "constructor").
Proof.
  rewrite groupBySport_default.
  destruct (groupBySport_loop (or_default normalize true) items)
    as [[Hall [groups [Hfold _]]]|[Hex Hthrow]].
  - split; [|split].
    + intros Hex. exfalso.
      apply List.Exists_exists in Hex as [item [Hin [Ht Hm]]].
      rewrite List.Forall_forall in Hall. specialize (Hall item Hin Ht).
      congruence.
    + intros _. now exists groups.
    + intros item Hm. unfold group_key in Hm.
      destruct (normalizeSportId_cases (sport item)) as [Hreg|Hc]; [|exact Hc].
      exfalso. apply mem_true_iff in Hm, Hreg. simpl in Hm, Hreg.
      repeat (destruct Hreg as [Hreg|Hreg];
              [rewrite <- Hreg in Hm;
               repeat (destruct Hm as [Hm|Hm]; [discriminate Hm|]);
               contradiction|]).
      contradiction.
  - split; [|split].
    + intros _. exact Hthrow.
    + intros Hall. exfalso.
      apply List.Exists_exists in Hex as [item [Hin [Ht Hm]]].
      rewrite List.Forall_forall in Hall. specialize (Hall item Hin Ht).
      congruence.
    + intros item Hm. unfold group_key in Hm.
      destruct (normalizeSportId_cases (sport item)) as [Hreg|Hc]; [|exact Hc].
      exfalso. apply mem_true_iff in Hm, Hreg. simpl in Hm, Hreg.
      repeat (destruct Hreg as [Hreg|Hreg];
              [rewrite <- Hreg in Hm;
               repeat (destruct Hm as [Hm|Hm]; [discriminate Hm|]);
               contradiction|]).
      contradiction.
Qed.

Lemma groupBySport_throws_iff_witness :
  groupBySport ["nba"; "Constructor"] None =
    Throw (TypeError "groups[sport].push is not a function") /\
  exists groups, groupBySport ["nba"; "Constructor"] (Some false) = Ok groups.
Proof.
  split.
  - apply (proj1 (groupBySport_throws_iff ["nba"; "Constructor"] None)).
    apply Exists_cons_tl. apply Exists_cons_hd. split; reflexivity.
  - apply (proj1 (proj2 (groupBySport_throws_iff ["nba"; "Constructor"]
                           (Some false)))).
    repeat constructor.
Defined.

(** X11: when countBySport returns, the count under a key is the number of
    items with a non-empty tag that fall under it, a key under which none
    falls is absent, and the counts add up to the number of items with a
    non-empty tag. *)
Theorem countBySport_counts {T : Type} `{SportFilterable T}
    (items : list T) (normalize : option bool) (counts : gmap string nat) :
  countBySport items normalize = Ok counts ->
  (forall k,
     counts !! k =
     length <$> nonempty (grouped (or_default normalize true) k items)) /\
  total_count counts =
    length (List.filter (fun item => JsString.truthy (sport item)) items).
Proof.
  unfold countBySport. intros Hc.
  destruct (groupBySport_loop (or_default normalize true) items)
    as [[_ [groups [Hfold [Hlook Htotal]]]]|[_ Hthrow]].
  - rewrite Hfold in Hc. simpl in Hc. inversion Hc; subst counts. split.
    + intros k. now rewrite lookup_fmap, Hlook.
    + exact Htotal.
  - rewrite Hthrow in Hc. discriminate.
Qed.

Lemma countBySport_counts_witness :
  exists counts,
    countBySport ["NBA"; "nfl"; "nba"; EmptyString; "xyz"] None = Ok counts /\
    counts !! "nba" = Some 2%nat /\
    counts !! "all" = Some 1%nat /\
    total_count counts = 4%nat.
Proof.
  destruct (countBySport ["NBA"; "nfl"; "nba"; EmptyString; "xyz"] None)
    as [counts|e] eqn:Hc; [|vm_compute in Hc; discriminate Hc].
  exists counts. split; [reflexivity|].
  destruct (countBySport_counts _ _ _ Hc) as [Hk Ht].
  split; [|split]; [rewrite Hk; reflexivity | rewrite Hk; reflexivity |].
  rewrite Ht. reflexivity.
Defined.

(** ** The unique sports, continued *)

Lemma set_add_NoDup (s : string) (members : list string) :
  List.NoDup members -> List.NoDup (set_add s members).
Proof.
  intros Hnd. unfold set_add. destruct (mem s members) eqn:Hm; [exact Hnd|].
  apply List.NoDup_app; [exact Hnd | repeat constructor; intros [] |].
  intros a Ha [<-|[]]. apply mem_true_iff in Ha. congruence.
Qed.

Lemma collect_sports_NoDup {T : Type} `{SportFilterable T}
    (normalize : bool) (items : list T) :
  List.NoDup (collect_sports normalize items).
Proof.
  unfold collect_sports. generalize (List.NoDup_nil string).
  generalize (@nil string).
  induction items as [|item items IH]; intros acc Hacc; simpl; [exact Hacc|].
  apply IH. destruct (JsString.truthy (sport item)); [|exact Hacc].
  now apply set_add_NoDup.
Qed.

(** X12: with includeAll false, extractUniqueSports returns every sport
    once: the result has no duplicates, and an id is in it exactly when some
    item with a non-empty tag has it as its (normalized, when normalize is
    on) tag, whatever the order the engine's sort leaves. *)
Theorem extractUniqueSports_unique
    (engine : Engine) {T : Type} `{SportFilterable T} (items : list T)
    (normalize sort : option bool) :
  sort_rearranges engine ->
  List.NoDup
    (extractUniqueSports engine items
       {| ex_includeAll := Some false; ex_normalize := normalize;
          ex_sort := sort |}) /\
  forall x,
    In x (extractUniqueSports engine items
            {| ex_includeAll := Some false; ex_normalize := normalize;
               ex_sort := sort |}) <->
    exists item, In item items /\ JsString.truthy (sport item) = true /\
                 group_key (or_default normalize true) item = x.
Proof.
  intros Hsort. unfold extractUniqueSports. simpl.
  assert (Hperm : Permutation
            (if or_default sort true
             then array_sort engine (sports_comparator engine)
                    (collect_sports (or_default normalize true) items)
             else collect_sports (or_default normalize true) items)
            (collect_sports (or_default normalize true) items)).
  { destruct (or_default sort true); [apply Hsort | reflexivity]. }
  split.
  - eapply Permutation_NoDup; [symmetry; exact Hperm|].
    apply collect_sports_NoDup.
  - intros x. unfold group_key. rewrite <- collect_sports_mem.
    split; intros Hin.
    + eapply Permutation_in; [exact Hperm | exact Hin].
    + eapply Permutation_in; [symmetry; exact Hperm | exact Hin].
Qed.

Lemma extractUniqueSports_unique_witness :
  List.NoDup
    (extractUniqueSports Reference.engine ["NBA"; "nba"; "mlb"; "xyz"]
       {| ex_includeAll := Some false; ex_normalize := None; ex_sort := None |}).
Proof.
  apply (extractUniqueSports_unique Reference.engine ["NBA"; "nba"; "mlb"; "xyz"]
           None None reference_sort_rearranges).
Defined.

(** X13: with default options, the list of extractUniqueSports contains the
    wildcard, and every entry is a registered id, or "constructor" when some
    tag normalizes to it. *)
Theorem extractUniqueSports_default_entries
    (engine : Engine) {T : Type} `{SportFilterable T} (items : list T) :
  sort_rearranges engine ->
  In UNIFIED_SPORTS.ALL (extractUniqueSports engine items extract_defaults) /\
  forall x, In x (extractUniqueSports engine items extract_defaults) ->
            is_registered x = true \/ x = "constructor".
Proof.
  intros Hsort. unfold extractUniqueSports. simpl.
  pose proof (Hsort _ (sports_comparator engine)
                (UNIFIED_SPORTS.ALL :: collect_sports true items)) as Hperm.
  split.
  - eapply Permutation_in; [symmetry; exact Hperm | now left].
  - intros x Hin.
    apply (Permutation_in _ Hperm) in Hin. destruct Hin as [<-|Hin].
    + now left.
    + apply collect_sports_mem in Hin as [item [_ [_ <-]]].
      apply normalizeSportId_cases.
Qed.

Lemma extractUniqueSports_default_entries_witness :
  In "all" (extractUniqueSports Reference.engine ["NBA"; "xyz"] extract_defaults).
Proof.
  apply (extractUniqueSports_default_entries Reference.engine ["NBA"; "xyz"]
           reference_sort_rearranges).
Defined.

(** ** The registry and the normalizer, continued *)

Lemma normalizeSportFilter_is_normalizeSportId (x : string) :
  normalizeSportFilter x = normalizeSportId x.
Proof.
  unfold normalizeSportFilter.
  destruct (negb (JsString.truthy x) || String.eqb x "all") eqn:E;
    [|reflexivity].
  apply orb_true_iff in E as [E|E].
  - destruct x; [reflexivity | discriminate E].
  - apply String.eqb_eq in E. subst x. reflexivity.
Qed.

(** X14: inputs that differ only in letter case or in the separator used
    (hyphen, underscore or whitespace) normalize to the same id. *)
Theorem normalizeSportFilter_spelling (x y : string) :
  hyphenate (JsString.toLowerCase x) = hyphenate (JsString.toLowerCase y) ->
  normalizeSportFilter x = normalizeSportFilter y.
Proof.
  intros Hxy. rewrite !normalizeSportFilter_is_normalizeSportId.
  unfold normalizeSportId. now rewrite Hxy.
Qed.

Lemma normalizeSportFilter_spelling_witness :
  normalizeSportFilter "College Football" = normalizeSportFilter "college_football".
Proof. apply normalizeSportFilter_spelling. reflexivity. Defined.

Lemma normalizeSportFilter_registered (r : string) :
  is_registered r = true -> normalizeSportFilter r = r.
Proof.
  intros Hr. apply registered_cases in Hr. simpl in Hr.
  repeat (destruct Hr as [Hr|Hr]; [subst r; reflexivity|]).
  contradiction.
Qed.

(** X15: normalization is idempotent: normalizing a normalized id returns
    it. *)
Theorem normalizeSportFilter_idempotent (x : string) :
  normalizeSportFilter (normalizeSportFilter x) = normalizeSportFilter x.
Proof.
  destruct (normalizeSportFilter_cases x) as [Hr|Hc].
  - now apply normalizeSportFilter_registered.
  - rewrite Hc. reflexivity.
Qed.

Lemma truthy_toLowerCase (s : string) :
  JsString.truthy (JsString.toLowerCase s) = JsString.truthy s.
Proof. destruct s; reflexivity. Qed.

(** X16: every letter-case spelling of a registered id is valid, looks up
    the descriptor of that id, and normalizes to the id. *)
Theorem registered_spelling (s : string) :
  is_registered (JsString.toLowerCase s) = true ->
  isValidSportFilter s = true /\
  isValidSport s = true /\
  (exists config, getSportConfig s = Own config /\
                  id config = JsString.toLowerCase s) /\
  normalizeSportFilter s = JsString.toLowerCase s.
Proof.
  intros Hr.
  assert (Ht : JsString.truthy s = true).
  { rewrite <- truthy_toLowerCase. apply registered_cases in Hr. simpl in Hr.
    repeat (destruct Hr as [Hr|Hr]; [rewrite <- Hr; reflexivity|]).
    contradiction. }
  assert (Hcfg : exists config, getSportConfig s = Own config /\
                                id config = JsString.toLowerCase s).
  { unfold getSportConfig. apply registered_cases in Hr. simpl in Hr.
    repeat (destruct Hr as [Hr|Hr];
            [rewrite <- Hr; eexists; split; reflexivity|]).
    contradiction. }
  assert (Hvalid : isValidSport s = true).
  { unfold isValidSport. destruct Hcfg as [config [-> _]]. reflexivity. }
  repeat split; try assumption.
  - unfold isValidSportFilter. rewrite Ht, Hvalid. simpl.
    now destruct (_ || _).
  - rewrite normalizeSportFilter_is_normalizeSportId. unfold normalizeSportId.
    apply registered_cases in Hr. simpl in Hr.
    repeat (destruct Hr as [Hr|Hr]; [rewrite <- Hr; reflexivity|]).
    contradiction.
Qed.

Lemma registered_spelling_witness :
  isValidSportFilter "WnBa" = true /\ normalizeSportFilter "WnBa" = "wnba".
Proof.
  destruct (registered_spelling "WnBa" eq_refl) as [H1 [_ [_ H2]]].
  split; [exact H1 | exact H2].
Defined.

(** X17: the seasons isInSeason enforces.  For a month from 0 to 11 and
    an id whose lower-casing is not the name of an inherited property, the
    answer is false exactly for tennis in December, college football from
    February to July and college basketball from May to October, and true in
    every other case: the season table is keyed by short names, and only
    these three are also display names, so the other leagues (NBA, WNBA,
    NFL, MLB, NHL, PGA) and every unknown id are always reported in season.
    On an inherited name such as "constructor" the call throws. *)
Theorem isInSeason_effective_seasons (month : Z) (sportId : string) :
  0 <= month <= 11 ->
  (mem (JsString.toLowerCase sportId) Object_prototype_keys = false ->
   isInSeason month sportId =
     Ok (negb
           (String.eqb (JsString.toLowerCase sportId) "tennis" && (month =? 11) ||
            String.eqb (JsString.toLowerCase sportId) "college-football" &&
              ((1 <=? month) && (month <=? 6)) ||
            String.eqb (JsString.toLowerCase sportId) "college-basketball" &&
              ((4 <=? month) && (month <=? 9))))) /\
  (mem (JsString.toLowerCase sportId) Object_prototype_keys = true ->
   isInSeason month sportId =
     Throw (TypeError
              "Cannot read properties of undefined (reading 'isYearRound')")).
Proof.
  intros Hmonth. unfold isInSeason, getSportConfig, get.
  destruct (own_property SPORT_CONFIGS (JsString.toLowerCase sportId))
    as [config|] eqn:Hown.
  - apply own_property_In in Hown. simpl in Hown.
    assert (Hcases : month = 0 \/ month = 1 \/ month = 2 \/ month = 3 \/
                     month = 4 \/ month = 5 \/ month = 6 \/ month = 7 \/
                     month = 8 \/ month = 9 \/ month = 10 \/ month = 11) by lia.
    repeat (destruct Hown as [Hown|Hown];
            [injection Hown as Hkey Hconfig; rewrite <- Hkey, <- Hconfig;
             split; [intros _|intros Hm; vm_compute in Hm; discriminate Hm];
             first [reflexivity
                   | repeat (destruct Hcases as [Hcases|Hcases];
                             [subst month; reflexivity|]);
                     subst month; reflexivity]|]).
    contradiction.
  - destruct (mem (JsString.toLowerCase sportId) Object_prototype_keys);
      split; intros Hm; try discriminate Hm; [reflexivity|].
    destruct (String.eqb (JsString.toLowerCase sportId) "tennis") eqn:Et.
    { apply String.eqb_eq in Et. rewrite Et in Hown. discriminate Hown. }
    destruct (String.eqb (JsString.toLowerCase sportId) "college-football") eqn:Ef.
    { apply String.eqb_eq in Ef. rewrite Ef in Hown. discriminate Hown. }
    destruct (String.eqb (JsString.toLowerCase sportId) "college-basketball") eqn:Eb.
    { apply String.eqb_eq in Eb. rewrite Eb in Hown. discriminate Hown. }
    reflexivity.
Qed.

Lemma isInSeason_effective_seasons_witness :
  isInSeason 11 "Tennis" = Ok false /\ isInSeason 6 "NBA" = Ok true /\
  isInSeason 3 "college-football" = Ok false.
Proof.
  split; [|split].
  - apply (proj1 (isInSeason_effective_seasons 11 "Tennis" ltac:(lia))).
    reflexivity.
  - apply (proj1 (isInSeason_effective_seasons 6 "NBA" ltac:(lia))).
    reflexivity.
  - apply (proj1 (isInSeason_effective_seasons 3 "college-football" ltac:(lia))).
    reflexivity.
Defined.

(** X18: getActiveSports lists every registered sport once: thirteen
    descriptors with the wildcard when includeAll is true, the twelve others
    without it when includeAll is false; the id of each is a valid sport. *)
Theorem getActiveSports_complete (engine : Engine) (includeAll : bool) :
  sort_rearranges engine ->
  Permutation (map id (getActiveSports engine includeAll))
              (if includeAll then registry_ids else List.tl registry_ids) /\
  (In UNIFIED_SPORTS.ALL (map id (getActiveSports engine includeAll)) <->
   includeAll = true) /\
  Forall (fun config => isValidSport (id config) = true)
         (getActiveSports engine includeAll).
Proof.
  intros Hsort. unfold getActiveSports.
  set (sports := List.filter _ _).
  pose proof (Hsort _ (active_comparator engine) sports) as Hperm.
  assert (Hids : map id sports =
                 if includeAll then registry_ids else List.tl registry_ids).
  { subst sports. destruct includeAll; reflexivity. }
  split; [|split].
  - rewrite <- Hids. now apply Permutation_map.
  - rewrite (Permutation_map id Hperm), Hids.
    destruct includeAll; simpl; split; intros Hin; auto; try discriminate.
    repeat (destruct Hin as [Hin|Hin]; [discriminate Hin|]). contradiction.
  - apply List.Forall_forall. intros config Hin.
    apply (Permutation_in _ Hperm) in Hin. subst sports.
    apply List.filter_In in Hin as [Hin _]. simpl in Hin.
    repeat (destruct Hin as [Hin|Hin]; [subst config; reflexivity|]).
    contradiction.
Qed.

Lemma getActiveSports_complete_witness :
  ~ In "all" (map id (getActiveSports Reference.engine false)).
Proof.
  intros Hin.
  apply (proj1 (proj2 (getActiveSports_complete Reference.engine false
                         reference_sort_rearranges))) in Hin.
  discriminate Hin.
Defined.

(** ** The facade, continued *)

Lemma firstn_In {A : Type} (n : nat) (l : list A) (x : A) :
  In x (firstn n l) -> In x l.
Proof.
  intros Hin. rewrite <- (firstn_skipn n l). apply in_or_app. now left.
Qed.

Lemma slice0_In {A : Type} (l : list A) (n : Z) (x : A) :
  In x (slice0 l n) -> In x l.
Proof. unfold slice0. destruct (0 <=? n); apply firstn_In. Qed.

Lemma slice0_length {A : Type} (l : list A) (n : Z) :
  0 <= n -> Z.of_nat (length (slice0 l n)) <= n.
Proof.
  intros Hn. unfold slice0.
  replace (0 <=? n) with true by (symmetry; now apply Z.leb_le).
  pose proof (firstn_le_length (Z.to_nat n) l). lia.
Qed.

Lemma sublist_In {A : Type} (l k : list A) (x : A) :
  sublist l k -> In x l -> In x k.
Proof.
  induction 1 as [|y l k _ IH|y l k _ IH]; simpl; [tauto | | ].
  - intros [->|Hin]; [now left | right; now apply IH].
  - intros Hin. right. now apply IH.
Qed.

Lemma filterSportData_In {T : Type} `{SportFilterable T}
    (items out : list T) (s : string) (o : FilterSportDataOptions) (x : T) :
  filterSportData items s o = Ok out -> In x out -> In x items.
Proof.
  unfold filterSportData, filterBySport.
  destruct (_ && _).
  - intros Hout. now inversion Hout.
  - intros Hout. apply sublist_In. eapply array_filter_sublist. exact Hout.
Qed.

Section Shape.

Variable engine : Engine.
Hypothesis engine_sorts : sort_rearranges engine.
Context {A : Type} `{SportFilterable A}.
Variable fields : A -> list (string * JsValue).
Variable confidence : A -> Z.

(** What the four steps leave: records of the input, at or above a non-zero
    minimum confidence, no more than a positive limit. *)
Lemma shape_result (f : UnifiedDataFilters) (items out : list A) :
  shape engine fields confidence f items = Ok out ->
  (forall x, In x out -> In x items) /\
  (forall m, minConfidence f = Some m -> m <> 0 ->
             Forall (fun x => m <= confidence x) out) /\
  (forall n, maxResults f = Some n -> 0 < n -> Z.of_nat (length out) <= n).
Proof.
  unfold shape.
  lazymatch goal with
  | |- js_bind ?r _ = _ -> _ => destruct r as [items1|e] eqn:Hfiltered
  end; [|discriminate].
  cbn [js_bind].
  assert (H1 : forall x, In x items1 -> In x items).
  { destruct (f_sport f) as [s|].
    - destruct (_ && _).
      + intros x. eapply filterSportData_In. exact Hfiltered.
      + now inversion Hfiltered.
    - now inversion Hfiltered. }
  set (items2 := match minConfidence f with Some m => _ | None => _ end).
  assert (H2 : (forall x, In x items2 -> In x items1) /\
               forall m, minConfidence f = Some m -> m <> 0 ->
                         Forall (fun x => m <= confidence x) items2).
  { subst items2. destruct (minConfidence f) as [m|].
    - destruct (m =? 0) eqn:Hm.
      + split; [auto|]. intros m' Hm' Hne. inversion Hm'; subst.
        apply Z.eqb_eq in Hm. contradiction.
      + split.
        * intros x Hin. now apply List.filter_In in Hin as [Hin _].
        * intros m' Hm' _. inversion Hm'; subst m'.
          apply List.Forall_forall. intros x Hin.
          apply List.filter_In in Hin as [_ Hle]. now apply Z.leb_le.
    - split; [auto | discriminate]. }
  destruct H2 as [H2 H2c].
  set (items3 := match sortBy f with Some k => _ | None => _ end).
  assert (H3 : Permutation items3 items2).
  { subst items3. destruct (sortBy f) as [k|]; [|reflexivity].
    destruct (JsString.truthy k); [apply engine_sorts | reflexivity]. }
  set (items4 := match maxResults f with Some n => _ | None => _ end).
  assert (H4 : (forall x, In x items4 -> In x items3) /\
               forall n, maxResults f = Some n -> 0 < n ->
                         Z.of_nat (length items4) <= n).
  { subst items4. destruct (maxResults f) as [n|].
    - destruct (n =? 0) eqn:Hn.
      + split; [auto|]. intros n' Hn' Hpos. inversion Hn'; subst.
        apply Z.eqb_eq in Hn. lia.
      + split; [intros x; apply slice0_In|].
        intros n' Hn' Hpos. inversion Hn'; subst n'. apply slice0_length. lia.
    - split; [auto | discriminate]. }
  destruct H4 as [H4 H4n].
  intros Hout. inversion Hout; subst out.
  split; [|split].
  - intros x Hin. apply H1, H2. apply (Permutation_in _ H3). now apply H4.
  - intros m Hm Hne. apply List.Forall_forall. intros x Hin.
    specialize (H2c m Hm Hne). rewrite List.Forall_forall in H2c.
    apply H2c. apply (Permutation_in _ H3). now apply H4.
  - exact H4n.
Qed.

End Shape.

Lemma getFromCache_other (now : Z) (key k : string) (cache : Cache) :
  k <> key -> snd (getFromCache now key cache) !! k = cache !! k.
Proof.
  intros Hk. unfold getFromCache. destruct (cache !! key) as [e|]; [|reflexivity].
  destruct (isValidCacheEntry now e); [reflexivity|]. simpl.
  apply lookup_delete_ne. congruence.
Qed.

Lemma getFromCache_stored (now t ttl : Z) (key : string) (d : Payload)
    (cache : Cache) :
  getFromCache now key (setCache t key d ttl cache) =
  if now <? t + ttl then (Some d, setCache t key d ttl cache)
  else (None, delete key (setCache t key d ttl cache)).
Proof.
  unfold getFromCache, setCache. rewrite lookup_insert_eq.
  unfold isValidCacheEntry. simpl.
  destruct (now - t <? ttl) eqn:E1, (now <? t + ttl) eqn:E2; try reflexivity.
  - apply Z.ltb_lt in E1. apply Z.ltb_ge in E2. lia.
  - apply Z.ltb_ge in E1. apply Z.ltb_lt in E2. lia.
Qed.

Section FacadeSuccess.

Variable engine : Engine.
Variable JSON_stringify : UnifiedDataFilters -> string.
Variable api : Api.

Lemma getBettingOpportunities_success (f : UnifiedDataFilters) (t0 t1 : Z)
    (cache : Cache) (items : list UnifiedBettingOpportunity) :
  fst (getFromCache t0 (getCacheKey JSON_stringify "betting-opportunities" f) cache)
    = None ->
  fetch_opportunities engine api f t0 t1 = Ok items ->
  getBettingOpportunities engine JSON_stringify api f t0 t1 cache =
    (Fresh (succeeded items f t1),
     setCache t1 (getCacheKey JSON_stringify "betting-opportunities" f)
       (PBets (succeeded items f t1)) CACHE_TTL
       (delete (getCacheKey JSON_stringify "betting-opportunities" f) cache)).
Proof.
  intros Hmiss Hfetch. unfold getBettingOpportunities.
  destruct (getFromCache_miss _ _ _ Hmiss) as [Hsnd _].
  destruct (getFromCache t0 _ cache) as [cached cache'] eqn:Hget.
  simpl in Hmiss, Hsnd. subst cached cache'. now rewrite Hfetch.
Qed.

Lemma getPlayerProps_success (f : UnifiedDataFilters) (t0 t1 : Z)
    (cache : Cache) (items : list UnifiedPlayerProp) :
  fst (getFromCache t0 (getCacheKey JSON_stringify "player-props" f) cache)
    = None ->
  fetch_props engine api f t0 t1 = Ok items ->
  getPlayerProps engine JSON_stringify api f t0 t1 cache =
    (Fresh (succeeded items f t1),
     setCache t1 (getCacheKey JSON_stringify "player-props" f)
       (PProps (succeeded items f t1)) CACHE_TTL
       (delete (getCacheKey JSON_stringify "player-props" f) cache)).
Proof.
  intros Hmiss Hfetch. unfold getPlayerProps.
  destruct (getFromCache_miss _ _ _ Hmiss) as [Hsnd _].
  destruct (getFromCache t0 _ cache) as [cached cache'] eqn:Hget.
  simpl in Hmiss, Hsnd. subst cached cache'. now rewrite Hfetch.
Qed.

Lemma fetch_opportunities_Ok (f : UnifiedDataFilters) (t0 t1 : Z)
    (items : list UnifiedBettingOpportunity) :
  fetch_opportunities engine api f t0 t1 = Ok items ->
  exists resp raws,
    api_getBettingOpportunities api t0 (betting_request f) = Ok resp /\
    resp_success resp = true /\ resp_data resp = Some raws /\
    shape engine Opportunity.fields Opportunity.confidence f
          (imap (unify_opportunity engine t1) raws) = Ok items.
Proof.
  unfold fetch_opportunities.
  destruct (api_getBettingOpportunities api t0 (betting_request f))
    as [resp|e]; [|discriminate].
  cbn [js_bind]. unfold checked.
  destruct (resp_success resp) eqn:Hs; [|discriminate].
  destruct (resp_data resp) as [raws|] eqn:Hd; [|discriminate].
  cbn [js_bind]. intros Hshape. now exists resp, raws.
Qed.

Lemma fetch_props_Ok (f : UnifiedDataFilters) (t0 t1 : Z)
    (items : list UnifiedPlayerProp) :
  fetch_props engine api f t0 t1 = Ok items ->
  exists resp raws,
    api_getPrizePicksProps api t0 (props_request f) = Ok resp /\
    resp_success resp = true /\ resp_data resp = Some raws /\
    shape engine PlayerProp.fields PlayerProp.confidence f
          (imap (unify_prop engine t1) raws) = Ok items.
Proof.
  unfold fetch_props.
  destruct (api_getPrizePicksProps api t0 (props_request f))
    as [resp|e]; [|discriminate].
  cbn [js_bind]. unfold checked.
  destruct (resp_success resp) eqn:Hs; [|discriminate].
  destruct (resp_data resp) as [raws|] eqn:Hd; [|discriminate].
  cbn [js_bind]. intros Hshape. now exists resp, raws.
Qed.

Lemma getBettingOpportunities_fresh (f : UnifiedDataFilters) (t0 t1 : Z)
    (cache : Cache) (r : UnifiedApiResponse UnifiedBettingOpportunity) :
  fst (getBettingOpportunities engine JSON_stringify api f t0 t1 cache) = Fresh r ->
  success r = true ->
  exists items, fetch_opportunities engine api f t0 t1 = Ok items /\
                r = succeeded items f t1.
Proof.
  unfold getBettingOpportunities.
  destruct (getFromCache t0 _ cache) as [[p|] cache']; [discriminate|].
  destruct (fetch_opportunities engine api f t0 t1) as [items|e]; simpl.
  - intros Hr _. inversion Hr. now exists items.
  - intros Hr Hs. apply caught_fresh in Hr. subst r. discriminate Hs.
Qed.

Lemma getPlayerProps_fresh (f : UnifiedDataFilters) (t0 t1 : Z)
    (cache : Cache) (r : UnifiedApiResponse UnifiedPlayerProp) :
  fst (getPlayerProps engine JSON_stringify api f t0 t1 cache) = Fresh r ->
  success r = true ->
  exists items, fetch_props engine api f t0 t1 = Ok items /\
                r = succeeded items f t1.
Proof.
  unfold getPlayerProps.
  destruct (getFromCache t0 _ cache) as [[p|] cache']; [discriminate|].
  destruct (fetch_props engine api f t0 t1) as [items|e]; simpl.
  - intros Hr _. inversion Hr. now exists items.
  - intros Hr Hs. apply caught_fresh in Hr. subst r. discriminate Hs.
Qed.

End FacadeSuccess.

(** X19: a successful result of getBettingOpportunities is served from the cache for
    five minutes, to the calls whose filters serialize to the same key.  The
    key is the endpoint followed by [JSON.stringify(filters)], which prints
    the properties in the order they were created.  After a call that
    misses the cache and fetches a result at time t1, every call whose
    filters print as the first call's did and whose lookup happens before
    t1 + 300000 resolves with that result from the cache, whatever the
    client would answer, and leaves the cache as it is; such a call at or
    after t1 + 300000 is not answered from the cache; and a call whose
    filters print differently, the same filters written in another order
    among them, is not answered from the cache either, unless the cache
    held an entry under its own key. *)
Theorem getBettingOpportunities_served_from_cache
    (engine : Engine) (JSON_stringify : UnifiedDataFilters -> string)
    (api api' : Api) (f : UnifiedDataFilters) (t0 t1 : Z) (cache : Cache)
    (items : list UnifiedBettingOpportunity) :
  fst (getFromCache t0 (getCacheKey JSON_stringify "betting-opportunities" f) cache)
    = None ->
  fetch_opportunities engine api f t0 t1 = Ok items ->
  forall cache',
  cache' = snd (getBettingOpportunities engine JSON_stringify api f t0 t1 cache) ->
  fst (getBettingOpportunities engine JSON_stringify api f t0 t1 cache) =
    Fresh (succeeded items f t1) /\
  (forall g t0' t1',
     JSON_stringify g = JSON_stringify f -> t0' < t1 + 300000 ->
     getBettingOpportunities engine JSON_stringify api' g t0' t1' cache' =
       (FromCache (PBets (succeeded items f t1)), cache')) /\
  (forall g t0' t1' p,
     JSON_stringify g = JSON_stringify f -> t1 + 300000 <= t0' ->
     fst (getBettingOpportunities engine JSON_stringify api' g t0' t1' cache')
       <> FromCache p) /\
  (forall g t0' t1' p,
     JSON_stringify g <> JSON_stringify f ->
     cache !! getCacheKey JSON_stringify "betting-opportunities" g = None ->
     fst (getBettingOpportunities engine JSON_stringify api' g t0' t1' cache')
       <> FromCache p).
Proof.
  intros Hmiss Hfetch cache' ->.
  rewrite (getBettingOpportunities_success _ _ _ _ _ _ _ _ Hmiss Hfetch). simpl.
  split; [reflexivity|]. split; [|split].
  - intros g t0' t1' Hkey Ht. unfold getBettingOpportunities, getCacheKey.
    rewrite Hkey. fold (getCacheKey JSON_stringify "betting-opportunities" f).
    rewrite getFromCache_stored. unfold CACHE_TTL.
    replace (t0' <? t1 + 5 * 60 * 1000) with true
      by (symmetry; apply Z.ltb_lt; lia).
    reflexivity.
  - intros g t0' t1' p Hkey Ht. unfold getBettingOpportunities, getCacheKey.
    rewrite Hkey. fold (getCacheKey JSON_stringify "betting-opportunities" f).
    rewrite getFromCache_stored. unfold CACHE_TTL.
    replace (t0' <? t1 + 5 * 60 * 1000) with false
      by (symmetry; apply Z.ltb_ge; lia).
    destruct (fetch_opportunities engine api' g t0' t1'); simpl;
      [discriminate | apply caught_not_cached].
  - intros g t0' t1' p Hkey Hnone.
    apply getBettingOpportunities_not_cached. unfold setCache.
    rewrite lookup_insert_ne by (now apply getCacheKey_differs).
    rewrite lookup_delete_ne by (now apply getCacheKey_differs).
    exact Hnone.
Qed.

Lemma getBettingOpportunities_served_from_cache_witness :
  Reference.stringify Reference.nba_five <> Reference.stringify Reference.five_nba /\
  fst (getBettingOpportunities Reference.engine Reference.stringify Reference.down
         Reference.nba_five 299000 299001
         (snd (getBettingOpportunities Reference.engine Reference.stringify
                 Reference.flaky Reference.nba_five 0 1 ∅))) =
    FromCache (PBets (succeeded [] Reference.nba_five 1)) /\
  forall p,
    fst (getBettingOpportunities Reference.engine Reference.stringify
           Reference.down Reference.five_nba 299000 299001
           (snd (getBettingOpportunities Reference.engine Reference.stringify
                   Reference.flaky Reference.nba_five 0 1 ∅))) <>
    FromCache p.
Proof.
  assert (Hdiff : Reference.stringify Reference.five_nba <>
                  Reference.stringify Reference.nba_five)
    by (vm_compute; discriminate).
  pose proof (getBettingOpportunities_served_from_cache Reference.engine
                Reference.stringify Reference.flaky Reference.down
                Reference.nba_five 0 1 ∅ [] eq_refl eq_refl _ eq_refl)
    as [_ [Hhit [_ Hother]]].
  split; [intros Heq; now apply Hdiff|]. split.
  - rewrite (Hhit Reference.nba_five 299000 299001) by (reflexivity || lia).
    reflexivity.
  - intros p. apply Hother; [exact Hdiff | apply lookup_empty].
Defined.

(** X20: a successful result of getPlayerProps is served from the cache for
    five minutes, to the calls whose filters serialize to the same key.  The
    key is the endpoint followed by [JSON.stringify(filters)], which prints
    the properties in the order they were created.  After a call that
    misses the cache and fetches a result at time t1, every call whose
    filters print as the first call's did and whose lookup happens before
    t1 + 300000 resolves with that result from the cache, whatever the
    client would answer, and leaves the cache as it is; such a call at or
    after t1 + 300000 is not answered from the cache; and a call whose
    filters print differently, the same filters written in another order
    among them, is not answered from the cache either, unless the cache
    held an entry under its own key. *)
Theorem getPlayerProps_served_from_cache
    (engine : Engine) (JSON_stringify : UnifiedDataFilters -> string)
    (api api' : Api) (f : UnifiedDataFilters) (t0 t1 : Z) (cache : Cache)
    (items : list UnifiedPlayerProp) :
  fst (getFromCache t0 (getCacheKey JSON_stringify "player-props" f) cache)
    = None ->
  fetch_props engine api f t0 t1 = Ok items ->
  forall cache',
  cache' = snd (getPlayerProps engine JSON_stringify api f t0 t1 cache) ->
  fst (getPlayerProps engine JSON_stringify api f t0 t1 cache) =
    Fresh (succeeded items f t1) /\
  (forall g t0' t1',
     JSON_stringify g = JSON_stringify f -> t0' < t1 + 300000 ->
     getPlayerProps engine JSON_stringify api' g t0' t1' cache' =
       (FromCache (PProps (succeeded items f t1)), cache')) /\
  (forall g t0' t1' p,
     JSON_stringify g = JSON_stringify f -> t1 + 300000 <= t0' ->
     fst (getPlayerProps engine JSON_stringify api' g t0' t1' cache')
       <> FromCache p) /\
  (forall g t0' t1' p,
     JSON_stringify g <> JSON_stringify f ->
     cache !! getCacheKey JSON_stringify "player-props" g = None ->
     fst (getPlayerProps engine JSON_stringify api' g t0' t1' cache')
       <> FromCache p).
Proof.
  intros Hmiss Hfetch cache' ->.
  rewrite (getPlayerProps_success _ _ _ _ _ _ _ _ Hmiss Hfetch). simpl.
  split; [reflexivity|]. split; [|split].
  - intros g t0' t1' Hkey Ht. unfold getPlayerProps, getCacheKey.
    rewrite Hkey. fold (getCacheKey JSON_stringify "player-props" f).
    rewrite getFromCache_stored. unfold CACHE_TTL.
    replace (t0' <? t1 + 5 * 60 * 1000) with true
      by (symmetry; apply Z.ltb_lt; lia).
    reflexivity.
  - intros g t0' t1' p Hkey Ht. unfold getPlayerProps, getCacheKey.
    rewrite Hkey. fold (getCacheKey JSON_stringify "player-props" f).
    rewrite getFromCache_stored. unfold CACHE_TTL.
    replace (t0' <? t1 + 5 * 60 * 1000) with false
      by (symmetry; apply Z.ltb_ge; lia).
    destruct (fetch_props engine api' g t0' t1'); simpl;
      [discriminate | apply caught_not_cached].
  - intros g t0' t1' p Hkey Hnone.
    apply getPlayerProps_not_cached. unfold setCache.
    rewrite lookup_insert_ne by (now apply getCacheKey_differs).
    rewrite lookup_delete_ne by (now apply getCacheKey_differs).
    exact Hnone.
Qed.

Lemma getPlayerProps_served_from_cache_witness :
  (exists r,
     fst (getPlayerProps Reference.engine Reference.stringify Reference.down
            Reference.nba_five 1000 1001
            (snd (getPlayerProps Reference.engine Reference.stringify
                    Reference.two_props Reference.nba_five 0 1 ∅))) =
     FromCache (PProps r) /\ success r = true) /\
  forall p,
    fst (getPlayerProps Reference.engine Reference.stringify
           Reference.down Reference.five_nba 1000 1001
           (snd (getPlayerProps Reference.engine Reference.stringify
                   Reference.two_props Reference.nba_five 0 1 ∅))) <>
    FromCache p.
Proof.
  assert (Hdiff : Reference.stringify Reference.five_nba <>
                  Reference.stringify Reference.nba_five)
    by (vm_compute; discriminate).
  destruct (fetch_props Reference.engine Reference.two_props Reference.nba_five 0 1)
    as [items|e] eqn:Hfetch; [|vm_compute in Hfetch; discriminate Hfetch].
  pose proof (getPlayerProps_served_from_cache Reference.engine
                Reference.stringify Reference.two_props Reference.down
                Reference.nba_five 0 1 ∅ items eq_refl Hfetch _ eq_refl)
    as [_ [Hhit [_ Hother]]].
  split.
  - exists (succeeded items Reference.nba_five 1).
    rewrite (Hhit Reference.nba_five 1000 1001) by (reflexivity || lia).
    split; reflexivity.
  - intros p. apply Hother; [exact Hdiff | apply lookup_empty].
Defined.

(** X21: a fetching method touches only its own cache entry.  Whatever its
    outcome, getBettingOpportunities leaves every entry under another key as
    it was, in particular the entries of getPlayerProps and of
    getAvailableSports, and so does getPlayerProps. *)
Theorem fetch_touches_own_key
    (engine : Engine) (JSON_stringify : UnifiedDataFilters -> string) (api : Api)
    (f g : UnifiedDataFilters) (t0 t1 : Z) (cache : Cache) (k : string) :
  (k <> getCacheKey JSON_stringify "betting-opportunities" f ->
   snd (getBettingOpportunities engine JSON_stringify api f t0 t1 cache) !! k =
     cache !! k) /\
  (k <> getCacheKey JSON_stringify "player-props" f ->
   snd (getPlayerProps engine JSON_stringify api f t0 t1 cache) !! k =
     cache !! k) /\
  snd (getBettingOpportunities engine JSON_stringify api f t0 t1 cache)
    !! getCacheKey JSON_stringify "player-props" g =
    cache !! getCacheKey JSON_stringify "player-props" g /\
  snd (getBettingOpportunities engine JSON_stringify api f t0 t1 cache)
    !! "available-sports" = cache !! "available-sports" /\
  snd (getPlayerProps engine JSON_stringify api f t0 t1 cache)
    !! getCacheKey JSON_stringify "betting-opportunities" g =
    cache !! getCacheKey JSON_stringify "betting-opportunities" g /\
  snd (getPlayerProps engine JSON_stringify api f t0 t1 cache)
    !! "available-sports" = cache !! "available-sports".
Proof.
  assert (Hb : forall k',
            k' <> getCacheKey JSON_stringify "betting-opportunities" f ->
            snd (getBettingOpportunities engine JSON_stringify api f t0 t1 cache)
              !! k' = cache !! k').
  { intros k' Hk. unfold getBettingOpportunities.
    pose proof (getFromCache_other t0 _ k' cache Hk) as Hother.
    destruct (getFromCache t0 _ cache) as [[p|] cache']; simpl in *;
      [exact Hother|].
    destruct (fetch_opportunities engine api f t0 t1); simpl; [|exact Hother].
    unfold setCache. rewrite lookup_insert_ne by congruence. exact Hother. }
  assert (Hp : forall k',
            k' <> getCacheKey JSON_stringify "player-props" f ->
            snd (getPlayerProps engine JSON_stringify api f t0 t1 cache)
              !! k' = cache !! k').
  { intros k' Hk. unfold getPlayerProps.
    pose proof (getFromCache_other t0 _ k' cache Hk) as Hother.
    destruct (getFromCache t0 _ cache) as [[p|] cache']; simpl in *;
      [exact Hother|].
    destruct (fetch_props engine api f t0 t1); simpl; [|exact Hother].
    unfold setCache. rewrite lookup_insert_ne by congruence. exact Hother. }
  split; [apply Hb|]. split; [apply Hp|].
  split; [apply Hb; intros Heq; symmetry in Heq;
          now apply betting_key_not_props in Heq|].
  split; [apply Hb; intros Heq; symmetry in Heq;
          now apply betting_key_not_sports in Heq|].
  split; [apply Hp; now apply betting_key_not_props|].
  apply Hp. intros Heq. symmetry in Heq. now apply props_key_not_sports in Heq.
Qed.

Lemma fetch_touches_own_key_witness :
  snd (getPlayerProps Reference.engine Reference.stringify Reference.two_props
         no_filters 5 6 Reference.after_one_fetch)
    !! "betting-opportunities:{}" =
  Reference.after_one_fetch !! "betting-opportunities:{}".
Proof.
  apply (proj1 (proj2 (fetch_touches_own_key Reference.engine Reference.stringify
                         Reference.two_props no_filters no_filters 5 6
                         Reference.after_one_fetch "betting-opportunities:{}"))).
  discriminate.
Defined.

(** X22: what a successful getBettingOpportunities returns.  When the call
    fetches and succeeds, its count is the length of its data, every record
    is the transform of a record the client delivered, every record meets a
    non-zero minConfidence, and a positive maxResults bounds their number. *)
Theorem getBettingOpportunities_result
    (engine : Engine) (JSON_stringify : UnifiedDataFilters -> string) (api : Api)
    (f : UnifiedDataFilters) (t0 t1 : Z) (cache : Cache)
    (r : UnifiedApiResponse UnifiedBettingOpportunity) :
  sort_rearranges engine ->
  fst (getBettingOpportunities engine JSON_stringify api f t0 t1 cache) = Fresh r ->
  success r = true ->
  exists items resp raws,
    data r = Some items /\
    count r = Some (Z.of_nat (length items)) /\
    api_getBettingOpportunities api t0 (betting_request f) = Ok resp /\
    resp_data resp = Some raws /\
    (forall x, In x items ->
       exists i raw, raws !! i = Some raw /\ x = unify_opportunity engine t1 i raw) /\
    (forall m, minConfidence f = Some m -> m <> 0 ->
       Forall (fun x => m <= Opportunity.confidence x) items) /\
    (forall n, maxResults f = Some n -> 0 < n -> Z.of_nat (length items) <= n).
Proof.
  intros Hsort Hr Hs.
  destruct (getBettingOpportunities_fresh _ _ _ _ _ _ _ _ Hr Hs)
    as [items [Hfetch ->]].
  destruct (fetch_opportunities_Ok _ _ _ _ _ _ Hfetch)
    as [resp [raws [Hapi [_ [Hdata Hshape]]]]].
  destruct (shape_result engine Hsort _ _ _ _ _ Hshape) as [Hin [Hconf Hmax]].
  exists items, resp, raws. repeat split; try assumption.
  intros x Hx. apply Hin in Hx. apply list_elem_of_In in Hx.
  apply elem_of_lookup_imap_1 in Hx as [i [raw [-> Hraw]]]. now exists i, raw.
Qed.

(** X23: what a successful getPlayerProps returns: its count is the length
    of its data, every record is the transform of a record the client
    delivered, every record meets a non-zero minConfidence, and a positive
    maxResults bounds their number. *)
Theorem getPlayerProps_result
    (engine : Engine) (JSON_stringify : UnifiedDataFilters -> string) (api : Api)
    (f : UnifiedDataFilters) (t0 t1 : Z) (cache : Cache)
    (r : UnifiedApiResponse UnifiedPlayerProp) :
  sort_rearranges engine ->
  fst (getPlayerProps engine JSON_stringify api f t0 t1 cache) = Fresh r ->
  success r = true ->
  exists items resp raws,
    data r = Some items /\
    count r = Some (Z.of_nat (length items)) /\
    api_getPrizePicksProps api t0 (props_request f) = Ok resp /\
    resp_data resp = Some raws /\
    (forall x, In x items ->
       exists i raw, raws !! i = Some raw /\ x = unify_prop engine t1 i raw) /\
    (forall m, minConfidence f = Some m -> m <> 0 ->
       Forall (fun x => m <= PlayerProp.confidence x) items) /\
    (forall n, maxResults f = Some n -> 0 < n -> Z.of_nat (length items) <= n).
Proof.
  intros Hsort Hr Hs.
  destruct (getPlayerProps_fresh _ _ _ _ _ _ _ _ Hr Hs)
    as [items [Hfetch ->]].
  destruct (fetch_props_Ok _ _ _ _ _ _ Hfetch)
    as [resp [raws [Hapi [_ [Hdata Hshape]]]]].
  destruct (shape_result engine Hsort _ _ _ _ _ Hshape) as [Hin [Hconf Hmax]].
  exists items, resp, raws. repeat split; try assumption.
  intros x Hx. apply Hin in Hx. apply list_elem_of_In in Hx.
  apply elem_of_lookup_imap_1 in Hx as [i [raw [-> Hraw]]]. now exists i, raw.
Qed.

Lemma getBettingOpportunities_result_witness :
  exists items,
    (fun reply => match reply with Fresh r => data r | _ => None end)
      (fst (getBettingOpportunities Reference.engine Reference.stringify
              Reference.busy Reference.confident_one 0 1 ∅)) = Some items /\
    Forall (fun x => 90 <= Opportunity.confidence x) items /\
    Z.of_nat (length items) <= 1.
Proof.
  destruct (fst (getBettingOpportunities Reference.engine Reference.stringify
                   Reference.busy Reference.confident_one 0 1 ∅))
    as [p|r|e] eqn:Hr;
    [vm_compute in Hr; discriminate Hr| |vm_compute in Hr; discriminate Hr].
  assert (Hs : success r = true).
  { pose proof Hr as Hr'. vm_compute in Hr'. injection Hr' as <-. reflexivity. }
  destruct (getBettingOpportunities_result Reference.engine Reference.stringify
              Reference.busy Reference.confident_one 0 1 ∅ r
              reference_sort_rearranges Hr Hs)
    as [items [resp [raws [Hdata [_ [_ [_ [_ [Hconf Hmax]]]]]]]]].
  exists items. split; [exact Hdata|]. split.
  - apply (Hconf 90); [reflexivity | lia].
  - apply (Hmax 1); [reflexivity | lia].
Defined.

Lemma getPlayerProps_result_witness :
  exists items,
    (fun reply => match reply with Fresh r => data r | _ => None end)
      (fst (getPlayerProps Reference.engine Reference.stringify
              Reference.busy Reference.confident_one 0 1 ∅)) = Some items /\
    Forall (fun x => 90 <= PlayerProp.confidence x) items /\
    Z.of_nat (length items) <= 1.
Proof.
  destruct (fst (getPlayerProps Reference.engine Reference.stringify
                   Reference.busy Reference.confident_one 0 1 ∅))
    as [p|r|e] eqn:Hr;
    [vm_compute in Hr; discriminate Hr| |vm_compute in Hr; discriminate Hr].
  assert (Hs : success r = true).
  { pose proof Hr as Hr'. vm_compute in Hr'. injection Hr' as <-. reflexivity. }
  destruct (getPlayerProps_result Reference.engine Reference.stringify
              Reference.busy Reference.confident_one 0 1 ∅ r
              reference_sort_rearranges Hr Hs)
    as [items [resp [raws [Hdata [_ [_ [_ [_ [Hconf Hmax]]]]]]]]].
  exists items. split; [exact Hdata|]. split.
  - apply (Hconf 90); [reflexivity | lia].
  - apply (Hmax 1); [reflexivity | lia].
Defined.

(** X24: the sort order is inverted.  On a numeric field such as the
    confidence, the comparator of the sorting step is negative, so that the
    first record sorts before the second, exactly when the first is the
    larger one under sortOrder "asc", and exactly when it is the smaller one
    under "desc" or without a sortOrder: "asc" asks for descending order and
    the default is ascending. *)
Theorem sort_comparator_inverted (engine : Engine)
    (a b : UnifiedBettingOpportunity) (p q : UnifiedPlayerProp) :
  sort_comparator engine Opportunity.fields "confidence" (Some asc) a b =
    Some (Opportunity.confidence b - Opportunity.confidence a) /\
  sort_comparator engine Opportunity.fields "confidence" (Some desc) a b =
    Some (Opportunity.confidence a - Opportunity.confidence b) /\
  sort_comparator engine Opportunity.fields "confidence" None a b =
    Some (Opportunity.confidence a - Opportunity.confidence b) /\
  sort_comparator engine PlayerProp.fields "confidence" (Some asc) p q =
    Some (PlayerProp.confidence q - PlayerProp.confidence p) /\
  sort_comparator engine PlayerProp.fields "confidence" None p q =
    Some (PlayerProp.confidence p - PlayerProp.confidence q).
Proof.
  assert (Hnum : forall x y d,
            (fun v => v * d) <$>
              js_sub engine (value_or (VNumber y) (VNumber 0))
                            (value_or (VNumber x) (VNumber 0)) =
            Some ((y - x) * d)).
  { intros x y d. unfold value_or, value_truthy.
    destruct (x =? 0) eqn:Hx, (y =? 0) eqn:Hy; simpl;
      try apply Z.eqb_eq in Hx; try apply Z.eqb_eq in Hy; subst;
      reflexivity. }
  unfold sort_comparator, read_field, get.
  cbn [Opportunity.fields PlayerProp.fields own_property String.eqb Ascii.eqb
       Bool.eqb].
  repeat split; rewrite Hnum; f_equal; lia.
Qed.

Lemma add_sports_NoDup (sports : option (list string)) (acc : list string) :
  List.NoDup acc -> List.NoDup (add_sports sports acc).
Proof.
  destruct sports as [l|]; simpl; [|auto].
  revert acc. induction l as [|s l IH]; intros acc Hacc; simpl; [exact Hacc|].
  apply IH. now apply set_add_NoDup.
Qed.

Lemma add_sports_mem (sports : option (list string)) (acc : list string)
    (x : string) :
  In x (add_sports sports acc) <-> In x acc \/ In x (or_default sports []).
Proof.
  destruct sports as [l|]; simpl; [|tauto].
  revert acc. induction l as [|s l IH]; intros acc; simpl; [tauto|].
  rewrite IH, mem_set_add. intuition.
Qed.

(** *** The fetching methods reject only on a nullish rejection *)

Lemma sport_matches_not_nullish (cs apm : bool) (m : list (string * string))
    (target tag : string) (e : JsError) :
  sport_matches cs apm m target tag = Throw e -> nullish e = false.
Proof.
  unfold sport_matches.
  destruct (negb (JsString.truthy tag)); [discriminate|].
  destruct (apply_mapping m tag) as [itemSport|k].
  - destruct (String.eqb _ _); [discriminate|]. destruct apm; discriminate.
  - destruct cs; [destruct apm|]; try discriminate; now intros [= <-].
Qed.

Lemma array_filter_not_nullish {T : Type} (f : T -> JsResult bool)
    (items : list T) (e : JsError) :
  (forall item e', f item = Throw e' -> nullish e' = false) ->
  array_filter f items = Throw e -> nullish e = false.
Proof.
  intros Hf. induction items as [|item rest IH]; simpl; [discriminate|].
  destruct (f item) as [keep|e'] eqn:Hitem; simpl.
  - destruct (array_filter f rest) as [rest'|e'']; simpl; [discriminate|].
    intros [= <-]. now apply IH.
  - intros [= <-]. now apply (Hf item).
Qed.

Lemma shape_not_nullish (engine : Engine) {A : Type} `{SportFilterable A}
    (fields : A -> list (string * JsValue)) (confidence : A -> Z)
    (f : UnifiedDataFilters) (items : list A) (e : JsError) :
  shape engine fields confidence f items = Throw e -> nullish e = false.
Proof.
  unfold shape.
  destruct (f_sport f) as [s|]; [|discriminate].
  destruct (JsString.truthy s && negb (String.eqb s UNIFIED_SPORTS.ALL));
    [|discriminate].
  unfold filterSportData, filterBySport. cbn [opt_sport includeAll or_default].
  destruct (true && _); [discriminate|].
  match goal with
  | |- context [array_filter ?g items] =>
      destruct (array_filter g items) as [out|e'] eqn:Hfilter
  end; [discriminate|].
  cbn [js_bind]. intros [= <-].
  apply array_filter_not_nullish in Hfilter; [exact Hfilter|].
  intros item e0. apply sport_matches_not_nullish.
Qed.

Section Resolves.

Variable engine : Engine.
Variable JSON_stringify : UnifiedDataFilters -> string.
Variable api : Api.
Hypothesis api_values : never_nullish api.

Lemma fetch_opportunities_not_nullish (f : UnifiedDataFilters) (t0 t1 : Z)
    (e : JsError) :
  fetch_opportunities engine api f t0 t1 = Throw e -> nullish e = false.
Proof.
  unfold fetch_opportunities.
  pose proof (proj1 api_values t0 (betting_request f)) as Hvalue.
  destruct (api_getBettingOpportunities api t0 (betting_request f))
    as [resp|e']; cbn [js_bind].
  - unfold checked.
    destruct (resp_success resp); [destruct (resp_data resp)|]; cbn [js_bind];
      try (now intros [= <-]).
    apply shape_not_nullish.
  - now intros [= <-].
Qed.

Lemma fetch_props_not_nullish (f : UnifiedDataFilters) (t0 t1 : Z)
    (e : JsError) :
  fetch_props engine api f t0 t1 = Throw e -> nullish e = false.
Proof.
  unfold fetch_props.
  pose proof (proj2 api_values t0 (props_request f)) as Hvalue.
  destruct (api_getPrizePicksProps api t0 (props_request f))
    as [resp|e']; cbn [js_bind].
  - unfold checked.
    destruct (resp_success resp); [destruct (resp_data resp)|]; cbn [js_bind];
      try (now intros [= <-]).
    apply shape_not_nullish.
  - now intros [= <-].
Qed.

Lemma getBettingOpportunities_resolves (f : UnifiedDataFilters) (t0 t1 : Z)
    (cache : Cache) (e : JsError) :
  fst (getBettingOpportunities engine JSON_stringify api f t0 t1 cache)
    <> Rejected e.
Proof.
  unfold getBettingOpportunities.
  destruct (getFromCache t0 _ cache) as [[p|] cache']; [discriminate|].
  destruct (fetch_opportunities engine api f t0 t1) as [items|e'] eqn:Hfetch;
    simpl; [discriminate|].
  intros Hrejected. apply caught_rejected in Hrejected.
  apply fetch_opportunities_not_nullish in Hfetch. congruence.
Qed.

Lemma getPlayerProps_resolves (f : UnifiedDataFilters) (t0 t1 : Z)
    (cache : Cache) (e : JsError) :
  fst (getPlayerProps engine JSON_stringify api f t0 t1 cache) <> Rejected e.
Proof.
  unfold getPlayerProps.
  destruct (getFromCache t0 _ cache) as [[p|] cache']; [discriminate|].
  destruct (fetch_props engine api f t0 t1) as [items|e'] eqn:Hfetch;
    simpl; [discriminate|].
  intros Hrejected. apply caught_rejected in Hrejected.
  apply fetch_props_not_nullish in Hfetch. congruence.
Qed.

End Resolves.

Lemma Promise_all_resolved {B P : Type} (b : Reply B) (p : Reply P) :
  (forall e, b <> Rejected e) -> (forall e, p <> Rejected e) ->
  Promise_all b p = Ok (b, p).
Proof.
  intros Hb Hp. destruct b as [| |e]; [| |now destruct (Hb e)];
    (destruct p as [| |e]; [| |now destruct (Hp e)]); reflexivity.
Qed.

(** X25: the list of getAvailableSports.  For a client that never rejects
    with [undefined] or [null], so that the two fetching methods resolve:
    when nothing valid is cached under its key, the method resolves with the
    wildcard followed by the sports of the records the two fetching methods
    resolve with, each sport once, and the list is stored under
    "available-sports" with a time-to-live of two minutes. *)
Theorem getAvailableSports_list
    (engine : Engine) (JSON_stringify : UnifiedDataFilters -> string) (api : Api)
    (t0 tb tp t2 : Z) (cache : Cache) :
  never_nullish api ->
  fst (getFromCache t0 "available-sports" cache) = None ->
  exists sports,
    fst (getAvailableSports engine JSON_stringify api t0 tb tp t2 cache) =
      Fresh (UNIFIED_SPORTS.ALL :: sports) /\
    List.NoDup sports /\
    (forall x,
       In x sports <->
       In x (or_default
               (reply_sports
                  (fst (getBettingOpportunities engine JSON_stringify api hundred
                          t0 tb (delete "available-sports" cache)))) []) \/
       In x (or_default
               (reply_sports
                  (fst (getPlayerProps engine JSON_stringify api hundred t0 tp
                          (snd (getBettingOpportunities engine JSON_stringify api
                                  hundred t0 tb
                                  (delete "available-sports" cache)))))) [])) /\
    snd (getAvailableSports engine JSON_stringify api t0 tb tp t2 cache)
      !! "available-sports" =
      Some {| entry_data := PSports (UNIFIED_SPORTS.ALL :: sports);
              entry_timestamp := t2; entry_ttl := 120000 |}.
Proof.
  intros Hvalue Hmiss. unfold getAvailableSports.
  destruct (getFromCache_miss _ _ _ Hmiss) as [Hsnd _].
  destruct (getFromCache t0 "available-sports" cache) as [cached cache0] eqn:Hget.
  simpl in Hmiss, Hsnd. subst cached cache0.
  pose proof (getBettingOpportunities_resolves engine JSON_stringify api Hvalue
                hundred t0 tb (delete "available-sports" cache)) as Hrb.
  destruct (getBettingOpportunities engine JSON_stringify api hundred t0 tb
              (delete "available-sports" cache)) as [rb cb] eqn:Hb.
  pose proof (getPlayerProps_resolves engine JSON_stringify api Hvalue
                hundred t0 tp cb) as Hrp.
  destruct (getPlayerProps engine JSON_stringify api hundred t0 tp cb)
    as [rp cp] eqn:Hp.
  simpl in Hrb, Hrp. simpl. rewrite Hp. simpl.
  rewrite (Promise_all_resolved rb rp Hrb Hrp). simpl.
  exists (add_sports (reply_sports rp) (add_sports (reply_sports rb) [])).
  split; [reflexivity|]. split; [|split].
  - apply add_sports_NoDup, add_sports_NoDup. constructor.
  - intros x. rewrite !add_sports_mem. simpl. tauto.
  - unfold setCache. now rewrite lookup_insert_eq.
Qed.

Lemma getAvailableSports_list_witness :
  exists sports,
    fst (getAvailableSports Reference.engine Reference.stringify Reference.busy
           0 1 2 3 ∅) = Fresh ("all" :: sports) /\
    List.NoDup sports.
Proof.
  assert (Hmiss : fst (getFromCache 0 "available-sports" (∅ : Cache)) = None)
    by reflexivity.
  assert (Hvalue : never_nullish Reference.busy)
    by (split; intros t q; reflexivity).
  destruct (getAvailableSports_list Reference.engine Reference.stringify
              Reference.busy 0 1 2 3 ∅ Hvalue Hmiss) as [sports [Hfst [Hnd _]]].
  exists sports. split; [exact Hfst | exact Hnd].
Defined.

Lemma getAvailableSports_fresh
    (engine : Engine) (JSON_stringify : UnifiedDataFilters -> string) (api : Api)
    (t0 tb tp t2 : Z) (cache : Cache) (l : list string) :
  never_nullish api ->
  fst (getAvailableSports engine JSON_stringify api t0 tb tp t2 cache) = Fresh l ->
  exists c,
    snd (getAvailableSports engine JSON_stringify api t0 tb tp t2 cache) =
    setCache t2 "available-sports" (PSports l) (2 * 60 * 1000) c.
Proof.
  intros Hvalue. unfold getAvailableSports.
  destruct (getFromCache t0 "available-sports" cache) as [[p|] cache0];
    [discriminate|].
  pose proof (getBettingOpportunities_resolves engine JSON_stringify api Hvalue
                hundred t0 tb cache0) as Hrb.
  destruct (getBettingOpportunities engine JSON_stringify api hundred t0 tb cache0)
    as [rb cb].
  pose proof (getPlayerProps_resolves engine JSON_stringify api Hvalue
                hundred t0 tp cb) as Hrp.
  destruct (getPlayerProps engine JSON_stringify api hundred t0 tp cb) as [rp cp].
  simpl in Hrb, Hrp. rewrite (Promise_all_resolved rb rp Hrb Hrp).
  simpl. intros Hl. inversion Hl. now eexists.
Qed.

(** X26: the list of getAvailableSports is served from the cache for two
    minutes.  After a call that stores a list at time t2, as every call
    that builds its list does when the client never rejects with
    [undefined] or [null], every call whose lookup happens before
    t2 + 120000 resolves with the stored list, whatever the client would
    answer, without calling the fetching methods and without changing the
    cache. *)
Theorem getAvailableSports_served_from_cache
    (engine : Engine) (JSON_stringify : UnifiedDataFilters -> string)
    (api api' : Api) (t0 tb tp t2 : Z) (cache : Cache) (l : list string) :
  never_nullish api ->
  fst (getAvailableSports engine JSON_stringify api t0 tb tp t2 cache) = Fresh l ->
  forall cache',
  cache' = snd (getAvailableSports engine JSON_stringify api t0 tb tp t2 cache) ->
  forall t0' tb' tp' t2', t0' < t2 + 120000 ->
    getAvailableSports engine JSON_stringify api' t0' tb' tp' t2' cache' =
      (FromCache (PSports l), cache').
Proof.
  intros Hvalue Hfresh cache' -> t0' tb' tp' t2' Ht.
  destruct (getAvailableSports_fresh _ _ _ _ _ _ _ _ _ Hvalue Hfresh) as [c ->].
  unfold getAvailableSports. rewrite getFromCache_stored.
  replace (t0' <? t2 + 2 * 60 * 1000) with true
    by (symmetry; apply Z.ltb_lt; lia).
  reflexivity.
Qed.

Lemma getAvailableSports_served_from_cache_witness :
  fst (getAvailableSports Reference.engine Reference.stringify Reference.busy
         100000 100001 100002 100003
         (snd (getAvailableSports Reference.engine Reference.stringify
                 Reference.down 0 1 2 3 ∅))) =
  FromCache (PSports ["all"]).
Proof.
  assert (Hfresh : fst (getAvailableSports Reference.engine Reference.stringify
                          Reference.down 0 1 2 3 ∅) = Fresh ["all"])
    by (vm_compute; reflexivity).
  rewrite (getAvailableSports_served_from_cache Reference.engine
             Reference.stringify Reference.down Reference.busy 0 1 2 3 ∅ ["all"]
             reference_down_never_nullish Hfresh _ eq_refl
             100000 100001 100002 100003) by lia.
  reflexivity.
Defined.

(** ** A record tagged with an inherited name *)

Lemma Exists_imap {A B : Type} (P : A -> Prop) (Q : B -> Prop)
    (f : nat -> A -> B) (l : list A) :
  (forall i a, P a -> Q (f i a)) -> Exists P l -> Exists Q (imap f l).
Proof.
  intros Hf Hex. revert f Hf.
  induction Hex as [a l Ha|a l _ IH]; intros f Hf; simpl.
  - left. now apply Hf.
  - right. apply IH. intros i b. apply Hf.
Qed.

Lemma inherited_truthy (tag : string) :
  mem tag Object_prototype_keys = true -> JsString.truthy tag = true.
Proof. destruct tag; [discriminate | reflexivity]. Qed.

Lemma filterSportData_inherited {T : Type} `{SportFilterable T}
    (items : list T) (s : string) :
  s <> "all" -> JsString.truthy s = true ->
  Exists (fun item => mem (sport item) Object_prototype_keys = true) items ->
  filterSportData items s
    {| useCommonMappings := Some true; fsd_allowPartialMatch := Some true;
       fsd_caseSensitive := Some false |} =
  Throw (TypeError "itemSport.toLowerCase is not a function").
Proof.
  intros Hs Ht Hex. unfold filterSportData.
  rewrite filterBySport_no_bypass by assumption. simpl.
  apply array_filter_throws.
  - apply List.Forall_forall. intros item _.
    destruct (mem (sport item) Object_prototype_keys) eqn:Hm.
    + right. now apply (sport_matches_inherited true true).
    + left. now apply sport_matches_plain.
  - revert Hex. apply List.Exists_impl. intros item Hm.
    now apply (sport_matches_inherited true true).
Qed.

(** X27: one record tagged with an inherited property name fails a
    sport-filtered fetch.  When the client answers getBettingOpportunities
    successfully but one of its records has a sport such as "constructor"
    or "toString", and the filters name a sport other than "all", the call
    resolves with success false and the error "itemSport.toLowerCase is not
    a function", and stores nothing. *)
Theorem getBettingOpportunities_inherited_tag
    (engine : Engine) (JSON_stringify : UnifiedDataFilters -> string) (api : Api)
    (f : UnifiedDataFilters) (t0 t1 : Z) (cache : Cache)
    (resp : ApiResponse Opportunity.Raw) (raws : list Opportunity.Raw)
    (s : string) :
  fst (getFromCache t0 (getCacheKey JSON_stringify "betting-opportunities" f) cache)
    = None ->
  api_getBettingOpportunities api t0 (betting_request f) = Ok resp ->
  resp_success resp = true -> resp_data resp = Some raws ->
  f_sport f = Some s -> s <> "all" -> JsString.truthy s = true ->
  Exists (fun raw => exists tag, Opportunity.raw_sport raw = Some tag /\
                                 mem tag Object_prototype_keys = true) raws ->
  getBettingOpportunities engine JSON_stringify api f t0 t1 cache =
    (Fresh {| success := false; data := Some []; count := Some 0;
              filters := None;
              error := Some "itemSport.toLowerCase is not a function";
              timestamp := t1; cached := None |},
     delete (getCacheKey JSON_stringify "betting-opportunities" f) cache).
Proof.
  intros Hmiss Hapi Hsucc Hdata Hsport Hs Ht Hex.
  apply (getBettingOpportunities_error engine JSON_stringify api f t0 t1 cache
           (TypeError "itemSport.toLowerCase is not a function") Hmiss).
  unfold fetch_opportunities. rewrite Hapi. cbn [js_bind].
  unfold checked. rewrite Hsucc, Hdata. cbn [js_bind].
  unfold shape. rewrite Hsport, Ht.
  replace (String.eqb s UNIFIED_SPORTS.ALL) with false
    by (symmetry; now apply eqb_all_false).
  cbn [negb andb].
  rewrite filterSportData_inherited; [reflexivity | exact Hs | exact Ht |].
  revert Hex. apply Exists_imap. intros i raw [tag [Htag Hm]].
  unfold sport, opportunity_SportFilterable. simpl. rewrite Htag. simpl.
  now rewrite (inherited_truthy tag Hm).
Qed.

Lemma getBettingOpportunities_inherited_tag_witness :
  fst (getBettingOpportunities Reference.engine Reference.stringify
         {| api_getBettingOpportunities :=
              fun _ _ => Reference.answer
                           [Reference.raw_opportunity "b1" "nfl" 91;
                            Reference.raw_opportunity "b2" "constructor" 80];
            api_getPrizePicksProps := fun _ _ => Reference.answer [] |}
         {| f_sport := Some "nfl"; minConfidence := None; maxResults := None;
            includeExpired := None; sortBy := None; sortOrder := None;
            key_order := ["sport"] |}
         0 1 ∅) =
  Fresh (failure (TypeError "itemSport.toLowerCase is not a function") 1).
Proof.
  assert (Hmiss : forall k, fst (getFromCache 0 k (∅ : Cache)) = None)
    by reflexivity.
  erewrite getBettingOpportunities_inherited_tag with (s := "nfl");
    [reflexivity | apply Hmiss | reflexivity | reflexivity | reflexivity
    | reflexivity | discriminate | reflexivity |].
  apply Exists_cons_tl. apply Exists_cons_hd.
  exists "constructor". split; reflexivity.
Defined.

(** ** The sport filter hook *)

(** X28: setSport never selects a sport that is not available.  The sport it
    selects is the wildcard or the id of an available sport; when the
    available sports are registered ones it is a registered id, also on the
    input "constructor"; and resetToAll selects the wildcard. *)
Theorem setSport_selects_available
    (availableSports : list SportConfig) (sportName : string) :
  (setSport availableSports sportName = UNIFIED_SPORTS.ALL \/
   exists config, In config availableSports /\
                  id config = setSport availableSports sportName) /\
  (Forall (fun config => is_registered (id config) = true) availableSports ->
   is_registered (setSport availableSports sportName) = true) /\
  resetToAll availableSports = UNIFIED_SPORTS.ALL.
Proof.
  assert (Hsel : setSport availableSports sportName = UNIFIED_SPORTS.ALL \/
                 exists config, In config availableSports /\
                                id config = setSport availableSports sportName).
  { unfold setSport, some_id.
    destruct (existsb _ availableSports) eqn:Hsome; simpl.
    - right. apply existsb_exists in Hsome as [config [Hin Heq]].
      apply String.eqb_eq in Heq. now exists config.
    - left. destruct (String.eqb _ UNIFIED_SPORTS.ALL) eqn:Hall; simpl;
        [now apply String.eqb_eq | reflexivity]. }
  split; [exact Hsel|]. split.
  - intros Hreg. destruct Hsel as [->|[config [Hin <-]]]; [reflexivity|].
    rewrite List.Forall_forall in Hreg. now apply Hreg.
  - unfold resetToAll, setSport.
    now destruct (some_id availableSports _).
Qed.

Lemma setSport_selects_available_witness :
  is_registered
    (setSport (map snd SPORT_CONFIGS) "constructor") = true.
Proof.
  apply (proj1 (proj2 (setSport_selects_available (map snd SPORT_CONFIGS)
                         "constructor"))).
  repeat constructor.
Defined.
